(** * ecproc IDE: technique catalog, validator and generator units

    A shallow embedding of [src/lib/techniques.js] and [src/lib/validation.js]
    (the catalog of electrochemical techniques, default-step instantiation,
    the per-step and procedure-level validation rules), together with the
    unit-conversion and escaping helpers of the generators.

    JavaScript numbers are IEEE 754 binary64 values, so they are embedded as
    Rocq's primitive floats; comparisons are the IEEE ones (false on NaN).
    Objects used as string-keyed tables are association lists in property
    enumeration order, and property reads follow the prototype chain up to
    [Object.prototype]. *)

From Stdlib Require Import List String Ascii ZArith Bool Lia.
From Stdlib Require Import Floats.
From Stdlib Require Import DecimalString.
From Stdlib Require Import Permutation.
Import ListNotations.

Set Warnings "-inexact-float".
Local Open Scope string_scope.
Local Open Scope list_scope.

(** ** JavaScript values *)

Module JS.

(** The primitive values a step parameter can hold (objects and arrays are
    not modelled). *)
Inductive value : Type :=
| VUndefined
| VNull
| VBool (b : bool)
| VNum (x : float)
| VStr (s : string).

(** What a function call produces: a returned value or a thrown exception. *)
Inductive exn : Type :=
| Error (msg : string)
| TypeError.

Inductive outcome (A : Type) : Type :=
| Return (a : A)
| Throw (e : exn).
Arguments Return {A} a.
Arguments Throw {A} e.

Definition bind {A B : Type} (m : outcome A) (k : A -> outcome B) : outcome B :=
  match m with
  | Return a => k a
  | Throw e => Throw e
  end.

Definition fmap {A B : Type} (f : A -> B) (m : outcome A) : outcome B :=
  bind m (fun a => Return (f a)).

(** *** Objects as tables *)

(** An object literal with string keys: its own enumerable properties in
    enumeration order. *)
Definition obj (A : Type) : Type := list (string * A).

Fixpoint own {A : Type} (o : obj A) (k : string) : option A :=
  match o with
  | [] => None
  | (k', a) :: rest => if String.eqb k' k then Some a else own rest k
  end.

Definition keys {A : Type} (o : obj A) : list string := map fst o.
Definition values {A : Type} (o : obj A) : list A := map snd o.

(** [o[k] = a]: an existing own property keeps its place, a new one is
    appended. *)
Fixpoint set {A : Type} (o : obj A) (k : string) (a : A) : obj A :=
  match o with
  | [] => [(k, a)]
  | (k', a') :: rest =>
      if String.eqb k' k then (k', a) :: rest else (k', a') :: set rest k a
  end.

(** The property names every ordinary object inherits from
    [Object.prototype]; each of them reads as a truthy value (a function, or
    the prototype object itself for [__proto__]) that has no further
    properties of interest. *)
Definition Object_prototype : list string :=
  [ "constructor"; "hasOwnProperty"; "isPrototypeOf"; "propertyIsEnumerable";
    "toLocaleString"; "toString"; "valueOf"; "__proto__";
    "__defineGetter__"; "__defineSetter__";
    "__lookupGetter__"; "__lookupSetter__" ].

Definition inherited (k : string) : bool :=
  existsb (String.eqb k) Object_prototype.

(** The result of the property read [o[k]]. *)
Inductive prop (A : Type) : Type :=
| Own (a : A)
| Inherited
| Undefined.
Arguments Own {A} a.
Arguments Inherited {A}.
Arguments Undefined {A}.

Definition get {A : Type} (o : obj A) (k : string) : prop A :=
  match own o k with
  | Some a => Own a
  | None => if inherited k then Inherited else Undefined
  end.

(** A read of a data field whose name is not an [Object.prototype] member:
    a missing field is [undefined]. *)
Definition field (o : obj value) (k : string) : value :=
  match own o k with
  | Some v => v
  | None => VUndefined
  end.

(** *** Numeric conversion of strings

    [StringToNumber] (the conversion behind [Number(s)] and the relational
    operators) and [parseFloat], over strings held as UTF-8 bytes.  Decimal
    literals are rounded to the nearest binary64 value. *)

Definition codes (s : string) : list N :=
  map N_of_ascii (list_ascii_of_string s).

(** One white-space or line-terminator character at the head of the text. *)
Definition white1 (s : list N) : option (list N) :=
  match s with
  | (9 | 10 | 11 | 12 | 13 | 32)%N :: r => Some r
  | 194%N :: 160%N :: r => Some r
  | 225%N :: 154%N :: 128%N :: r => Some r
  | 226%N :: 128%N :: c :: r =>
      if ((128 <=? c) && (c <=? 138) || (c =? 168) || (c =? 169) || (c =? 175))%N
      then Some r else None
  | 226%N :: 129%N :: 159%N :: r => Some r
  | 227%N :: 128%N :: 128%N :: r => Some r
  | 239%N :: 187%N :: 191%N :: r => Some r
  | _ => None
  end.

Fixpoint skip_white (fuel : nat) (s : list N) : list N :=
  match fuel with
  | O => s
  | S fuel' =>
      match white1 s with
      | Some r => skip_white fuel' r
      | None => s
      end
  end.

Definition trim_start (s : list N) : list N := skip_white (List.length s) s.

Definition all_white (s : list N) : bool :=
  match trim_start s with
  | [] => true
  | _ => false
  end.

(** A run of digits in the given radix, accumulated onto [acc]; returns the
    value, the number of digits read and the rest of the text. *)
Definition digit_value (radix : Z) (c : N) : option Z :=
  let d :=
    if ((48 <=? c) && (c <=? 57))%N then Some (Z.of_N c - 48)%Z
    else if ((97 <=? c) && (c <=? 102))%N then Some (Z.of_N c - 87)%Z
    else if ((65 <=? c) && (c <=? 70))%N then Some (Z.of_N c - 55)%Z
    else None in
  match d with
  | Some v => if (v <? radix)%Z then Some v else None
  | None => None
  end.

Fixpoint digits (radix : Z) (s : list N) (acc : Z) (n : Z) : Z * Z * list N :=
  match s with
  | c :: r =>
      match digit_value radix c with
      | Some v => digits radix r (acc * radix + v)%Z (n + 1)%Z
      | None => (acc, n, s)
      end
  | [] => (acc, n, s)
  end.

Fixpoint starts_with (p s : list N) : option (list N) :=
  match p, s with
  | [], _ => Some s
  | a :: p', b :: s' => if (a =? b)%N then starts_with p' s' else None
  | _ :: _, [] => None
  end.

(** An integer, rounded to the nearest binary64 value. *)
Definition float_of_Z (z : Z) : float :=
  SF2Prim (binary_normalize prec emax z 0 false).

(** [m * 10^e] for a positive [m], rounded to the nearest binary64 value. *)
Definition float_of_decimal (neg : bool) (m e : Z) : float :=
  match m with
  | Zpos p =>
      if (0 <=? e)%Z
      then float_of_Z (cond_Zopp neg (m * 10 ^ e))
      else SF2Prim (SFdiv prec emax (S754_finite neg p 0)
                          (S754_finite false (Z.to_pos (10 ^ (- e))) 0))
  | _ => if neg then neg_zero else zero
  end.

(** The optional exponent part of a decimal literal. *)
Definition exponent_part (s : list N) : Z * list N :=
  match s with
  | (101 | 69)%N :: r =>
      let '(sg, r1) :=
        match r with
        | 43%N :: r' => (1%Z, r')
        | 45%N :: r' => ((-1)%Z, r')
        | _ => (1%Z, r)
        end in
      let '(v, n, r2) := digits 10 r1 0 0 in
      if (n =? 0)%Z then (0%Z, s) else ((sg * v)%Z, r2)
  | _ => (0%Z, s)
  end.

(** The longest prefix of the text that is a decimal literal
    ([Infinity], [ddd], [ddd.ddd], [.ddd], each with an optional exponent). *)
Definition unsigned_decimal (neg : bool) (s : list N) : option (float * list N) :=
  match starts_with (codes "Infinity") s with
  | Some r => Some (if neg then neg_infinity else infinity, r)
  | None =>
      let '(i, ni, r) := digits 10 s 0 0 in
      match r with
      | 46%N :: r1 =>
          let '(f, nf, r2) := digits 10 r1 i 0 in
          if ((ni =? 0) && (nf =? 0))%Z then None
          else
            let '(e, r3) := exponent_part r2 in
            Some (float_of_decimal neg f (e - nf), r3)
      | _ =>
          if (ni =? 0)%Z then None
          else let '(e, r3) := exponent_part r in
               Some (float_of_decimal neg i e, r3)
      end
  end.

Definition signed_decimal (s : list N) : option (float * list N) :=
  match s with
  | 43%N :: r => unsigned_decimal false r
  | 45%N :: r => unsigned_decimal true r
  | _ => unsigned_decimal false s
  end.

(** [0x], [0o] and [0b] integer literals. *)
Definition non_decimal (s : list N) : option (float * list N) :=
  match s with
  | 48%N :: p :: r =>
      let radix :=
        match p with
        | (120 | 88)%N => Some 16%Z
        | (111 | 79)%N => Some 8%Z
        | (98 | 66)%N => Some 2%Z
        | _ => None
        end in
      match radix with
      | Some b =>
          let '(v, n, r') := digits b r 0 0 in
          if (n =? 0)%Z then None else Some (float_of_Z v, r')
      | None => None
      end
  | _ => None
  end.

Definition StringToNumber (str : string) : float :=
  match trim_start (codes str) with
  | [] => zero
  | s =>
      match non_decimal s with
      | Some (x, r) => if all_white r then x else nan
      | None =>
          match signed_decimal s with
          | Some (x, r) => if all_white r then x else nan
          | None => nan
          end
      end
  end.

Definition parseFloat_string (str : string) : float :=
  match signed_decimal (trim_start (codes str)) with
  | Some (x, _) => x
  | None => nan
  end.

(** *** Coercions and operators *)

Definition ToNumber (v : value) : float :=
  match v with
  | VUndefined => nan
  | VNull => zero
  | VBool true => one
  | VBool false => zero
  | VNum x => x
  | VStr s => StringToNumber s
  end.

(** [parseFloat(v)] parses [String(v)].  The text of a number reads back as
    that number, except that negative zero prints as [0]; [null], [undefined]
    and the booleans print as words that are not numerals. *)
Definition parseFloat (v : value) : float :=
  match v with
  | VNum x => if is_zero x then zero else x
  | VStr s => parseFloat_string s
  | VUndefined | VNull | VBool _ => nan
  end.

(** Relational operators with a number on the right: the left operand is
    converted with [ToNumber]. *)
Definition lt (v : value) (c : float) : bool := ltb (ToNumber v) c.
Definition le (v : value) (c : float) : bool := leb (ToNumber v) c.
Definition gt (v : value) (c : float) : bool := ltb c (ToNumber v).
Definition ge (v : value) (c : float) : bool := leb c (ToNumber v).

Definition Math_abs (v : value) : float := abs (ToNumber v).

(** [v !== null] and [v === true]. *)
Definition not_null (v : value) : bool :=
  match v with
  | VNull => false
  | _ => true
  end.

Definition is_true (v : value) : bool :=
  match v with
  | VBool true => true
  | _ => false
  end.

End JS.

(** ** The technique catalog ([techniques.js]) *)

(** The schema of one parameter.  The display-only help text is left out. *)
Module ParamSpec.
Record t : Type := mk {
  label : string;
  type : string;
  default : JS.value;
  unit : option string;
  min : option float;
  max : option float;
  options : option (list string)
}.
End ParamSpec.

(** One technique definition.  The two prose descriptions are left out. *)
Module Technique.
Record t : Type := mk {
  id : string;
  name : string;
  abbrev : string;
  category : string;
  params : JS.obj ParamSpec.t
}.
End Technique.

(** A step of a procedure. *)
Module Step.
Record t : Type := mk {
  id : string;
  technique : string;
  params : JS.obj JS.value;
  tag : string
}.
End Step.

Module Category.
Record t : Type := mk {
  label : string;
  techniques : list string
}.
End Category.

Module Techniques.
Import JS.
Local Open Scope float_scope.

Definition ocp : Technique.t :=
  Technique.mk "ocp" "Open Circuit Potential" "OCP" "measurement"
    [
      ("duration_s", ParamSpec.mk "Duration" "number" (VNum 60) (Some "s") (Some 1) (Some 86400) None);
      ("stability_mV_min", ParamSpec.mk "Stability criterion" "number" (VNum 1) (Some "mV/min") (Some 0.1) (Some 100) None);
      ("sample_rate_Hz", ParamSpec.mk "Sample rate" "number" (VNum 1) (Some "Hz") (Some 0.1) (Some 1000) None)
    ].

Definition cv : Technique.t :=
  Technique.mk "cv" "Cyclic Voltammetry" "CV" "voltammetry"
    [
      ("vertex1_V", ParamSpec.mk "Lower vertex" "number" (VNum 0.05) (Some "V vs RHE") (Some (-3)) (Some 3) None);
      ("vertex2_V", ParamSpec.mk "Upper vertex" "number" (VNum 1.2) (Some "V vs RHE") (Some (-3)) (Some 3) None);
      ("scan_rate_mV_s", ParamSpec.mk "Scan rate" "number" (VNum 50) (Some "mV/s") (Some 0.1) (Some 10000) None);
      ("cycles", ParamSpec.mk "Cycles" "integer" (VNum 3) (Some "") (Some 1) (Some 1000000) None);
      ("start_potential_V", ParamSpec.mk "Start potential" "number" VNull (Some "V vs RHE") (Some (-3)) (Some 3) None);
      ("ir_compensation", ParamSpec.mk "iR compensation" "boolean" (VBool false) None None None None)
    ].

Definition lsv : Technique.t :=
  Technique.mk "lsv" "Linear Sweep Voltammetry" "LSV" "voltammetry"
    [
      ("start_V", ParamSpec.mk "Start potential" "number" (VNum 1.0) (Some "V vs RHE") (Some (-3)) (Some 3) None);
      ("end_V", ParamSpec.mk "End potential" "number" (VNum 0.2) (Some "V vs RHE") (Some (-3)) (Some 3) None);
      ("scan_rate_mV_s", ParamSpec.mk "Scan rate" "number" (VNum 5) (Some "mV/s") (Some 0.1) (Some 10000) None);
      ("ir_compensation", ParamSpec.mk "iR compensation" "boolean" (VBool false) None None None None)
    ].

Definition dpv : Technique.t :=
  Technique.mk "dpv" "Differential Pulse Voltammetry" "DPV" "voltammetry"
    [
      ("start_V", ParamSpec.mk "Start potential" "number" (VNum 0.0) (Some "V") (Some (-3)) (Some 3) None);
      ("end_V", ParamSpec.mk "End potential" "number" (VNum 1.0) (Some "V") (Some (-3)) (Some 3) None);
      ("pulse_height_mV", ParamSpec.mk "Pulse height" "number" (VNum 50) (Some "mV") (Some 1) (Some 250) None);
      ("pulse_width_ms", ParamSpec.mk "Pulse width" "number" (VNum 50) (Some "ms") (Some 1) (Some 1000) None);
      ("step_height_mV", ParamSpec.mk "Step height" "number" (VNum 5) (Some "mV") (Some 0.1) (Some 50) None);
      ("sample_period_ms", ParamSpec.mk "Sample period" "number" (VNum 20) (Some "ms") (Some 1) (Some 500) None)
    ].

Definition swv : Technique.t :=
  Technique.mk "swv" "Square Wave Voltammetry" "SWV" "voltammetry"
    [
      ("start_V", ParamSpec.mk "Start potential" "number" (VNum 0.0) (Some "V") (Some (-3)) (Some 3) None);
      ("end_V", ParamSpec.mk "End potential" "number" (VNum 1.0) (Some "V") (Some (-3)) (Some 3) None);
      ("frequency_Hz", ParamSpec.mk "Frequency" "number" (VNum 25) (Some "Hz") (Some 1) (Some 500) None);
      ("amplitude_mV", ParamSpec.mk "Amplitude" "number" (VNum 25) (Some "mV") (Some 1) (Some 250) None);
      ("step_height_mV", ParamSpec.mk "Step height" "number" (VNum 5) (Some "mV") (Some 0.1) (Some 50) None)
    ].

Definition stripping : Technique.t :=
  Technique.mk "stripping" "Stripping Voltammetry" "ASV/CSV" "voltammetry"
    [
      ("deposition_V", ParamSpec.mk "Deposition potential" "number" (VNum (-0.8)) (Some "V") (Some (-3)) (Some 3) None);
      ("deposition_time_s", ParamSpec.mk "Deposition time" "number" (VNum 120) (Some "s") (Some 1) (Some 3600) None);
      ("equilibration_s", ParamSpec.mk "Equilibration" "number" (VNum 10) (Some "s") (Some 0) (Some 120) None);
      ("strip_start_V", ParamSpec.mk "Strip start" "number" (VNum (-0.8)) (Some "V") (Some (-3)) (Some 3) None);
      ("strip_end_V", ParamSpec.mk "Strip end" "number" (VNum 0.3) (Some "V") (Some (-3)) (Some 3) None);
      ("scan_rate_mV_s", ParamSpec.mk "Scan rate" "number" (VNum 50) (Some "mV/s") (Some 1) (Some 1000) None)
    ].

Definition eis : Technique.t :=
  Technique.mk "eis" "Electrochemical Impedance Spectroscopy" "EIS" "impedance"
    [
      ("f_start_Hz", ParamSpec.mk "Start frequency" "number" (VNum 100000) (Some "Hz") (Some 0.000001) (Some 10000000) None);
      ("f_end_Hz", ParamSpec.mk "End frequency" "number" (VNum 0.1) (Some "Hz") (Some 0.000001) (Some 10000000) None);
      ("amplitude_mV", ParamSpec.mk "AC amplitude" "number" (VNum 10) (Some "mV") (Some 1) (Some 100) None);
      ("dc_potential_V", ParamSpec.mk "DC potential" "string" (VStr "OCP") (Some "V or OCP") None None None);
      ("points_per_decade", ParamSpec.mk "Points/decade" "integer" (VNum 10) (Some "") (Some 1) (Some 50) None)
    ].

Definition ca : Technique.t :=
  Technique.mk "ca" "Chronoamperometry" "CA" "chronomethod"
    [
      ("potential_V", ParamSpec.mk "Applied potential" "number" (VNum 1.5) (Some "V vs RHE") (Some (-3)) (Some 3) None);
      ("duration_s", ParamSpec.mk "Duration" "number" (VNum 3600) (Some "s") (Some 1) (Some 604800) None);
      ("sample_rate_Hz", ParamSpec.mk "Sample rate" "number" (VNum 1) (Some "Hz") (Some 0.001) (Some 1000) None)
    ].

Definition cp : Technique.t :=
  Technique.mk "cp" "Chronopotentiometry" "CP" "chronomethod"
    [
      ("current_mA", ParamSpec.mk "Applied current" "number" (VNum 10) (Some "mA") (Some (-1000)) (Some 1000) None);
      ("duration_s", ParamSpec.mk "Duration" "number" (VNum 3600) (Some "s") (Some 1) (Some 604800) None);
      ("voltage_limits_V", ParamSpec.mk "Voltage limits" "string" (VStr "-0.5 to 2.0") (Some "V") None None None)
    ].

Definition gcd : Technique.t :=
  Technique.mk "gcd" "Galvanostatic Charge-Discharge" "GCD" "chronomethod"
    [
      ("current_mA", ParamSpec.mk "Current" "number" (VNum 10) (Some "mA") (Some 0.001) (Some 1000) None);
      ("upper_V", ParamSpec.mk "Upper voltage" "number" (VNum 1.0) (Some "V") (Some (-3)) (Some 5) None);
      ("lower_V", ParamSpec.mk "Lower voltage" "number" (VNum 0.0) (Some "V") (Some (-3)) (Some 5) None);
      ("cycles", ParamSpec.mk "Cycles" "integer" (VNum 5) (Some "") (Some 1) (Some 10000) None)
    ].

Definition cc : Technique.t :=
  Technique.mk "cc" "Coulometry / Charge Counting" "CC" "chronomethod"
    [
      ("mode", ParamSpec.mk "Control mode" "select" (VStr "potentiostatic") None None None (Some ["potentiostatic"; "galvanostatic"]));
      ("setpoint", ParamSpec.mk "Setpoint" "number" (VNum 1.0) (Some "V or mA") (Some (-10)) (Some 10) None);
      ("duration_s", ParamSpec.mk "Duration" "number" (VNum 600) (Some "s") (Some 1) (Some 86400) None);
      ("cutoff_C", ParamSpec.mk "Charge cutoff" "number" VNull (Some "C") (Some 0) (Some 10000) None)
    ].

Definition purge : Technique.t :=
  Technique.mk "purge" "Gas Purge" "Purge" "auxiliary"
    [
      ("gas", ParamSpec.mk "Gas" "select" (VStr "N2") None None None (Some ["N2"; "O2"; "Ar"; "H2"; "CO2"; "air"]));
      ("duration_min", ParamSpec.mk "Duration" "number" (VNum 20) (Some "min") (Some 1) (Some 120) None);
      ("flow_rate_mL_min", ParamSpec.mk "Flow rate" "number" (VNum 50) (Some "mL/min") (Some 1) (Some 500) None)
    ].

Definition TECHNIQUES : JS.obj Technique.t :=
  [ ("ocp", ocp);
    ("cv", cv);
    ("lsv", lsv);
    ("dpv", dpv);
    ("swv", swv);
    ("stripping", stripping);
    ("eis", eis);
    ("ca", ca);
    ("cp", cp);
    ("gcd", gcd);
    ("cc", cc);
    ("purge", purge) ].

(** Technique categories for grouping in the UI. *)
Definition TECHNIQUE_CATEGORIES : JS.obj Category.t :=
  [ ("measurement", Category.mk "Potential Measurement" ["ocp"]);
    ("voltammetry", Category.mk "Voltammetry" ["cv"; "lsv"; "dpv"; "swv"; "stripping"]);
    ("impedance", Category.mk "Impedance" ["eis"]);
    ("chronomethod", Category.mk "Chronomethods" ["ca"; "cp"; "gcd"; "cc"]);
    ("auxiliary", Category.mk "Auxiliary" ["purge"]) ].

(** [params[key] = config.default] for each entry of the schema, in order. *)
Definition default_params (schema : JS.obj ParamSpec.t) : JS.obj value :=
  fold_left (fun params entry => JS.set params (fst entry) (ParamSpec.default (snd entry)))
            schema [].

Definition string_of_Z (z : Z) : string := NilZero.string_of_int (Z.to_int z).

(** Create a default step for a technique.  The step identifier is built from
    the clock and a random draw, which are arguments here: [now] is the value
    of [Date.now()] and [rand] the text of [Math.random().toString(36)].
    A technique identifier that names a member of [Object.prototype] passes
    the [!tech] test, and [Object.entries(tech.params)] then throws on the
    undefined [params]. *)
Definition createDefaultStep (now : Z) (rand : string) (techniqueId : string)
  : outcome Step.t :=
  match JS.get TECHNIQUES techniqueId with
  | Undefined => Throw (Error ("Unknown technique: " ++ techniqueId))
  | Inherited => Throw TypeError
  | Own tech =>
      Return (Step.mk ("step-" ++ string_of_Z now ++ "-" ++ substring 2 9 rand)
                      techniqueId
                      (default_params (Technique.params tech))
                      "")
  end.

End Techniques.

(** ** The validator ([validation.js]) *)

(** Validation result levels. *)
Module LEVEL.
Definition ERROR : string := "error".
Definition WARNING : string := "warning".
Definition INFO : string := "info".
End LEVEL.

(** A validation issue.  A message written as a template literal keeps the
    numbers it interpolates as numbers. *)
Module Issue.
Inductive piece : Type :=
| Text (s : string)
| Number (x : float).

Record t : Type := mk {
  level : string;
  code : string;
  message : list piece;
  param : option string;
  stepIndex : option Z
}.
End Issue.

Module Validation.
Import JS.
Import Techniques.
Local Open Scope float_scope.

Definition issue (level code msg : string) (param : option string) : Issue.t :=
  Issue.mk level code [Issue.Text msg] param None.

(** [if (c) issues.push(i)]. *)
Definition when (c : bool) (i : Issue.t) : list Issue.t :=
  if c then [i] else [].

(** *** Technique-specific rules *)

Definition cv_rules (params : obj value) : list Issue.t :=
  let vertex1_V := field params "vertex1_V" in
  let vertex2_V := field params "vertex2_V" in
  let scan_rate_mV_s := field params "scan_rate_mV_s" in
  let cycles := field params "cycles" in
  (* PV001: Scan rate upper limit *)
  when (gt scan_rate_mV_s 10000)
    (issue LEVEL.ERROR "PV001" "Scan rate exceeds instrument limit (10 V/s)"
           (Some "scan_rate_mV_s")) ++
  (* PV002: Scan rate lower limit *)
  when (gt scan_rate_mV_s 0 && lt scan_rate_mV_s 0.1)
    (issue LEVEL.ERROR "PV002"
           "Scan rate too slow (<0.1 mV/s) — may cause drift artifacts"
           (Some "scan_rate_mV_s")) ++
  (* PV003: Positive cycles *)
  when (lt cycles 1)
    (issue LEVEL.ERROR "PV003" "At least 1 cycle required" (Some "cycles")) ++
  (* PV004: Distinct vertices *)
  when (not_null vertex1_V && not_null vertex2_V
        && PrimFloat.eqb (parseFloat vertex1_V) (parseFloat vertex2_V))
    (issue LEVEL.ERROR "PV004" "Vertex potentials must differ" (Some "vertex1_V")) ++
  (* DR011: Minimum cycles for steady-state *)
  when (ge cycles 1 && lt cycles 3)
    (issue LEVEL.WARNING "DR011"
           "Consider ≥3 cycles for reproducible steady-state response"
           (Some "cycles")).

Definition eis_rules (params : obj value) : list Issue.t :=
  let f_start_Hz := field params "f_start_Hz" in
  let f_end_Hz := field params "f_end_Hz" in
  let amplitude_mV := field params "amplitude_mV" in
  (* PV005: Frequency order *)
  when (not_null f_start_Hz && not_null f_end_Hz
        && PrimFloat.leb (parseFloat f_start_Hz) (parseFloat f_end_Hz))
    (issue LEVEL.ERROR "PV005" "Start frequency must be greater than end frequency"
           (Some "f_start_Hz")) ++
  (* PV006: Upper frequency limit *)
  when (gt f_start_Hz 10000000)
    (issue LEVEL.ERROR "PV006" "Start frequency exceeds 10 MHz (instrument limit)"
           (Some "f_start_Hz")) ++
  (* PV007: Lower frequency limit *)
  when (lt f_end_Hz 0.000001)
    (issue LEVEL.ERROR "PV007" "End frequency below 1 µHz (impractical)"
           (Some "f_end_Hz")) ++
  (* PV008: Positive amplitude *)
  when (le amplitude_mV 0)
    (issue LEVEL.ERROR "PV008" "Amplitude must be positive" (Some "amplitude_mV")) ++
  (* PV009: Amplitude upper limit *)
  when (gt amplitude_mV 100)
    (issue LEVEL.ERROR "PV009"
           "Amplitude exceeds 100 mV — will violate linearity assumption"
           (Some "amplitude_mV")) ++
  (* DR005: Linearity warning *)
  when (gt amplitude_mV 10 && le amplitude_mV 100)
    (issue LEVEL.WARNING "DR005"
           "Amplitude >10 mV may introduce nonlinear artifacts in impedance spectra"
           (Some "amplitude_mV")).

Definition ocp_rules (params : obj value) : list Issue.t :=
  let duration_s := field params "duration_s" in
  (* PV011: Positive duration *)
  when (le duration_s 0)
    (issue LEVEL.ERROR "PV011" "Duration must be positive" (Some "duration_s")) ++
  (* DR004: Minimum duration for stability *)
  when (gt duration_s 0 && lt duration_s 30)
    (issue LEVEL.WARNING "DR004"
           "OCP duration <30s may not allow electrode equilibration"
           (Some "duration_s")).

Definition ca_cp_rules (technique : string) (params : obj value) : list Issue.t :=
  let duration_s := field params "duration_s" in
  let potential_V := field params "potential_V" in
  let current_mA := field params "current_mA" in
  (* PV011: Positive duration *)
  when (le duration_s 0)
    (issue LEVEL.ERROR "PV011" "Duration must be positive" (Some "duration_s")) ++
  (* PV010: Potential limits *)
  when (String.eqb technique "ca" && PrimFloat.ltb 10 (Math_abs potential_V))
    (issue LEVEL.ERROR "PV010" "Potential outside ±10 V range" (Some "potential_V")) ++
  (* DR001: Solvent window warning *)
  when (String.eqb technique "ca" && PrimFloat.ltb 2.5 (Math_abs potential_V))
    (issue LEVEL.WARNING "DR001"
           "High potential may exceed aqueous solvent stability window"
           (Some "potential_V")) ++
  (* DR009: Current density warning *)
  when (String.eqb technique "cp" && PrimFloat.ltb 100 (Math_abs current_mA))
    (issue LEVEL.WARNING "DR009"
           "High current — verify electrode area can support this current density"
           (Some "current_mA")).

Definition lsv_rules (params : obj value) : list Issue.t :=
  let start_V := field params "start_V" in
  let end_V := field params "end_V" in
  let scan_rate_mV_s := field params "scan_rate_mV_s" in
  (* PV001/PV002: Scan rate limits (same as CV) *)
  when (gt scan_rate_mV_s 10000)
    (issue LEVEL.ERROR "PV001" "Scan rate exceeds 10 V/s" (Some "scan_rate_mV_s")) ++
  when (gt scan_rate_mV_s 0 && lt scan_rate_mV_s 0.1)
    (issue LEVEL.ERROR "PV002" "Scan rate too slow (<0.1 mV/s)"
           (Some "scan_rate_mV_s")) ++
  (* PV010: Potential limits *)
  when (PrimFloat.ltb 10 (Math_abs start_V) || PrimFloat.ltb 10 (Math_abs end_V))
    (issue LEVEL.ERROR "PV010" "Potential outside ±10 V range"
           (Some (if PrimFloat.ltb 10 (Math_abs start_V) then "start_V" else "end_V"))).

Definition purge_rules (params : obj value) : list Issue.t :=
  let duration_min := field params "duration_min" in
  when (lt duration_min 1)
    (issue LEVEL.ERROR "PV011" "Purge duration must be at least 1 minute"
           (Some "duration_min")) ++
  (* DR007: Minimum purge time for saturation *)
  when (ge duration_min 1 && lt duration_min 10)
    (issue LEVEL.WARNING "DR007" "Purge <10 min may not achieve full gas saturation"
           (Some "duration_min")).

(** The six technique blocks, in source order; each is guarded by the
    technique identifier of the step. *)
Definition technique_rules (step : Step.t) : list Issue.t :=
  let technique := Step.technique step in
  let params := Step.params step in
  (if String.eqb technique "cv" then cv_rules params else []) ++
  (if String.eqb technique "eis" then eis_rules params else []) ++
  (if String.eqb technique "ocp" then ocp_rules params else []) ++
  (if String.eqb technique "ca" || String.eqb technique "cp"
   then ca_cp_rules technique params else []) ++
  (if String.eqb technique "lsv" then lsv_rules params else []) ++
  (if String.eqb technique "purge" then purge_rules params else []).

(** *** Generic parameter bounds *)

Definition below_minimum (key : string) (paramDef : ParamSpec.t) (m : float) : Issue.t :=
  Issue.mk LEVEL.ERROR "PV000"
    [Issue.Text (ParamSpec.label paramDef ++ " below minimum ("); Issue.Number m;
     Issue.Text ")"]
    (Some key) None.

Definition above_maximum (key : string) (paramDef : ParamSpec.t) (m : float) : Issue.t :=
  Issue.mk LEVEL.ERROR "PV000"
    [Issue.Text (ParamSpec.label paramDef ++ " above maximum ("); Issue.Number m;
     Issue.Text ")"]
    (Some key) None.

(** The body of the loop over [Object.entries(step.params)].  A key that
    names a member of [Object.prototype] reads as an object without [min]
    or [max]. *)
Definition check_bounds (tech : Technique.t) (entry : string * value) : list Issue.t :=
  let '(key, value) := entry in
  match get (Technique.params tech) key with
  | Undefined => []
  | Inherited => []
  | Own paramDef =>
      match ParamSpec.min paramDef with
      | Some m => when (lt value m) (below_minimum key paramDef m)
      | None => []
      end ++
      match ParamSpec.max paramDef with
      | Some m => when (gt value m) (above_maximum key paramDef m)
      | None => []
      end
  end.

Definition unknown_technique (technique : string) : Issue.t :=
  Issue.mk LEVEL.ERROR "PV000" [Issue.Text ("Unknown technique: " ++ technique)]
           None None.

(** Validate a single step.  When the technique identifier names a member of
    [Object.prototype], [tech] is truthy but [tech.params] is undefined, and
    the first iteration of the bounds loop throws. *)
Definition validateStep (step : Step.t) : outcome (list Issue.t) :=
  match get TECHNIQUES (Step.technique step) with
  | Undefined => Return [unknown_technique (Step.technique step)]
  | Inherited =>
      match Step.params step with
      | [] => Return (technique_rules step)
      | _ :: _ => Throw TypeError
      end
  | Own tech =>
      Return (technique_rules step ++ flat_map (check_bounds tech) (Step.params step))
  end.

(** *** Procedure-level rules *)

Definition includes (l : list string) (x : string) : bool :=
  existsb (String.eqb x) l.

(** [Array.prototype.findIndex]: the index of the first match, or [-1]. *)
Fixpoint findIndex_from {A : Type} (p : A -> bool) (l : list A) (i : Z) : Z :=
  match l with
  | [] => (-1)%Z
  | a :: rest => if p a then i else findIndex_from p rest (i + 1)%Z
  end.

Definition findIndex {A : Type} (p : A -> bool) (l : list A) : Z :=
  findIndex_from p l 0%Z.

(** [Array.prototype.slice(start, end)]; a negative index counts from the
    end of the array. *)
Definition slice {A : Type} (l : list A) (start_ end_ : Z) : list A :=
  let len := Z.of_nat (List.length l) in
  let clamp z := (if z <? 0 then Z.max (len + z) 0 else Z.min z len)%Z in
  let k := clamp start_ in
  let final := clamp end_ in
  firstn (Z.to_nat (Z.max (final - k) 0)) (skipn (Z.to_nat k) l).

Definition Metadata : Type := obj value.

Definition measurementTechs : list string := ["lsv"; "cv"; "eis"].
Definition conditioningTechs : list string := ["cv"; "purge"; "ocp"].

Definition validateProcedure (steps : list Step.t) (_metadata : Metadata) : list Issue.t :=
  (* DR006: Conditioning before measurement *)
  let firstMeasurementIndex :=
    findIndex (fun s => includes measurementTechs (Step.technique s)) steps in
  let hasConditioningBefore :=
    existsb (fun s => includes conditioningTechs (Step.technique s))
            (slice steps 0 firstMeasurementIndex) in
  (* DR007: Gas purge before ORR/HER *)
  let hasLSV := existsb (fun s => String.eqb (Step.technique s) "lsv") steps in
  let hasPurge := existsb (fun s => String.eqb (Step.technique s) "purge") steps in
  (* DR008: iR compensation without EIS *)
  let hasIrComp :=
    existsb (fun s => is_true (field (Step.params s) "ir_compensation")) steps in
  let hasEIS := existsb (fun s => String.eqb (Step.technique s) "eis") steps in
  when ((0 <? firstMeasurementIndex)%Z && negb hasConditioningBefore)
    (Issue.mk LEVEL.WARNING "DR006"
       [Issue.Text "Consider adding conditioning (OCP, CV, or purge) before first measurement"]
       None (Some firstMeasurementIndex)) ++
  when (hasLSV && negb hasPurge)
    (issue LEVEL.WARNING "DR007"
       "Consider adding gas purge before LSV for defined atmosphere (O₂ for ORR, N₂ for background)"
       None) ++
  when (hasIrComp && negb hasEIS)
    (issue LEVEL.WARNING "DR008"
       "iR compensation enabled but no EIS measurement to determine Ru" None).

(** *** Summaries *)

Definition has_level (l : string) (i : Issue.t) : bool :=
  String.eqb (Issue.level i) l.

Definition summarizeIssues (issues : list Issue.t)
  : list Issue.t * list Issue.t * list Issue.t :=
  (filter (has_level LEVEL.ERROR) issues,
   filter (has_level LEVEL.WARNING) issues,
   filter (has_level LEVEL.INFO) issues).

(** [steps.flatMap(validateStep)]: the issue lists in step order; the first
    exception ends the traversal. *)
Fixpoint flatMap {A B : Type} (f : A -> outcome (list B)) (l : list A)
  : outcome (list B) :=
  match l with
  | [] => Return []
  | a :: rest =>
      bind (f a) (fun x => bind (flatMap f rest) (fun y => Return (x ++ y)))
  end.

(** Check if a procedure is valid (no errors). *)
Definition isValid (steps : list Step.t) (metadata : Metadata) : outcome bool :=
  bind (flatMap validateStep steps) (fun stepIssues =>
    let procIssues := validateProcedure steps metadata in
    let allIssues := stepIssues ++ procIssues in
    Return (negb (existsb (has_level LEVEL.ERROR) allIssues))).

End Validation.

(** ** Generator helpers

    [generators.js] is not among the sources (only its test suite is); the
    definitions of this module follow the specification of the generators. *)

Module Generators.
Import JS.
Local Open Scope float_scope.

(** *** Escaping *)

(** The argument of an escaping function: a string, [null] or [undefined]. *)
Inductive text : Type :=
| null
| undefined
| str (s : string).

(** [s.replace(/c/g, by)] for a single character [c]. *)
Fixpoint replaceAll (c : ascii) (by_ : string) (s : string) : string :=
  match s with
  | EmptyString => EmptyString
  | String x rest =>
      if Ascii.eqb x c then (by_ ++ replaceAll c by_ rest)%string
      else String x (replaceAll c by_ rest)
  end.

Definition backslash : ascii := "092"%char.
Definition double_quote : ascii := "034"%char.
Definition single_quote : ascii := "039"%char.
Definition newline : ascii := "010"%char.
Definition tab : ascii := "009"%char.
Definition carriage_return : ascii := "013"%char.

(** A backslash followed by one character. *)
Definition escaped (c : ascii) : string := String backslash (String c EmptyString).

(** Modelled from the spec: the last passes of both escaping functions
    (section 4.4), newline, tab and carriage return to their two-character
    escapes; [generators.js] is missing. *)
Definition escapeControls (s : string) : string :=
  replaceAll carriage_return (escaped "r"%char)
    (replaceAll tab (escaped "t"%char)
       (replaceAll newline (escaped "n"%char) s)).

(** Modelled from the spec: [escapeYaml] of the missing [generators.js],
    the quote-escaping function of the YAML-like format (section 4.4):
    backslash first, then the double quote, then
    newline, tab and carriage return; [null] and [undefined] yield the empty
    string. *)
Definition escapeYaml (str : text) : string :=
  match str with
  | null | undefined => ""
  | str s =>
      escapeControls
        (replaceAll double_quote (escaped double_quote)
           (replaceAll backslash (escaped backslash) s))
  end.

(** Modelled from the spec: [escapePython] of the missing [generators.js],
    the quote-escaping function of the SDK-script format (section 4.4):
    backslash first, then the double and the single
    quote, then newline, tab and carriage return; [null] and [undefined]
    yield the empty string. *)
Definition escapePython (str : text) : string :=
  match str with
  | null | undefined => ""
  | str s =>
      escapeControls
        (replaceAll single_quote (escaped single_quote)
           (replaceAll double_quote (escaped double_quote)
              (replaceAll backslash (escaped backslash) s)))
  end.

(** *** Conversion to SI units *)

(** [key] without its ending [suffix], when it ends with it. *)
Definition strip_suffix (suffix key : string) : option string :=
  let n := (String.length key - String.length suffix)%nat in
  if (String.length suffix <=? String.length key)%nat
     && String.eqb (substring n (String.length suffix) key) suffix
  then Some (substring 0 n key)
  else None.

(** Modelled from the spec: the arithmetic of the unit conversion (section
    4.3), which the spec states for numbers; any other value is kept as it
    is.  [generators.js] is missing. *)
Definition scale (f : float -> float) (v : value) : value :=
  match v with
  | VNum x => VNum (f x)
  | _ => v
  end.

(** Modelled from the spec: the unit conversion of [generateIR] in the
    missing [generators.js] (section 4.3): mV/s to V/s, mV to V, minutes to seconds and mA to A,
    each under the re-suffixed key; any other parameter passes through. *)
Definition toSI (entry : string * value) : string * value :=
  let '(key, v) := entry in
  match strip_suffix "_mV_s" key with
  | Some stem => ((stem ++ "_V_s")%string, scale (fun x => x / 1000) v)
  | None =>
  match strip_suffix "_mV" key with
  | Some stem => ((stem ++ "_V")%string, scale (fun x => x / 1000) v)
  | None =>
  match strip_suffix "_min" key with
  | Some stem => ((stem ++ "_s")%string, scale (fun x => x * 60) v)
  | None =>
  match strip_suffix "_mA" key with
  | Some stem => ((stem ++ "_A")%string, scale (fun x => x / 1000) v)
  | None => (key, v)
  end end end end.

(** Modelled from the spec: the parameters of one step in the output of
    [generateIR] (missing [generators.js], section 4.3), an object filled with
    the converted entries in parameter order. *)
Definition siParams (params : obj value) : obj value :=
  fold_left (fun o entry => JS.set o (fst (toSI entry)) (snd (toSI entry))) params [].

(** The key under which [toSI] files a parameter. *)
Definition si_key (key : string) : string := fst (toSI (key, VNull)).

(** No two of the keys convert to the same SI key, and none converts to a
    key of the list that is itself converted. *)
Definition si_keys_safe (ks : list string) : bool :=
  forallb (fun k =>
             String.eqb (si_key k) k
             || negb (existsb (String.eqb k) (map si_key ks))) ks.

(** *** Escaping, character by character *)

Fixpoint flat_map_string (f : ascii -> string) (s : string) : string :=
  match s with
  | EmptyString => EmptyString
  | String c rest => (f c ++ flat_map_string f rest)%string
  end.

Definition single (c : ascii) : string := String c EmptyString.

(** The escape of one character in the YAML-like format. *)
Definition yaml_escape (c : ascii) : string :=
  if Ascii.eqb c backslash then escaped backslash
  else if Ascii.eqb c double_quote then escaped double_quote
  else if Ascii.eqb c newline then escaped "n"%char
  else if Ascii.eqb c tab then escaped "t"%char
  else if Ascii.eqb c carriage_return then escaped "r"%char
  else single c.

(** The escape of one character in the SDK-script format. *)
Definition python_escape (c : ascii) : string :=
  if Ascii.eqb c single_quote then escaped single_quote else yaml_escape c.

Fixpoint last_ascii (s : string) : option ascii :=
  match s with
  | EmptyString => None
  | String c EmptyString => Some c
  | String _ rest => last_ascii rest
  end.

End Generators.

(** ** Fixtures

    Small definitions used to state the properties on concrete steps. *)

Module Fixtures.
Import JS Techniques Validation.

(** The identifiers listed by the categories, in order. *)
Definition category_ids : list string :=
  flat_map Category.techniques (values TECHNIQUE_CATEGORIES).

(** The default step of a technique with one parameter replaced. *)
Definition default_with (techniqueId key : string) (v : value) : outcome Step.t :=
  fmap (fun step =>
          Step.mk (Step.id step) (Step.technique step)
                  (JS.set (Step.params step) key v) (Step.tag step))
       (createDefaultStep 0 "0.4fzyo82mvyr" techniqueId).

Definition issue_codes (issues : list Issue.t) : list string := map Issue.code issues.

(** The default step of a technique, with a fixed clock and random draw. *)
Definition default_step (techniqueId : string) : Step.t :=
  match createDefaultStep 0 "0.4fzyo82mvyr" techniqueId with
  | Return step => step
  | Throw _ => Step.mk "" techniqueId [] ""
  end.

(** A cv step whose scan rate is 15000 mV/s. *)
Definition cv_fast : Step.t :=
  Step.mk "step-0-4fzyo82mv" "cv"
    [ ("vertex1_V", VNum 0.05%float); ("vertex2_V", VNum 1.2%float);
      ("scan_rate_mV_s", VNum 15000%float); ("cycles", VNum 3%float);
      ("start_potential_V", VNull); ("ir_compensation", VBool false) ]
    "".

(** A cv step with iR compensation switched on. *)
Definition default_with_ir : Step.t :=
  Step.mk "step-0-4fzyo82mv" "cv"
    [ ("vertex1_V", VNum 0.05%float); ("vertex2_V", VNum 1.2%float);
      ("scan_rate_mV_s", VNum 50%float); ("cycles", VNum 3%float);
      ("start_potential_V", VNull); ("ir_compensation", VBool true) ]
    "".

(** The default cv, ocp and eis steps with one parameter cleared to
    [null], as the editor stores an emptied field. *)
Definition cv_null_cycles : Step.t :=
  Step.mk "step-0-4fzyo82mv" "cv"
    [ ("vertex1_V", VNum 0.05%float); ("vertex2_V", VNum 1.2%float);
      ("scan_rate_mV_s", VNum 50%float); ("cycles", VNull);
      ("start_potential_V", VNull); ("ir_compensation", VBool false) ]
    "".

Definition ocp_null_duration : Step.t :=
  Step.mk "step-0-4fzyo82mv" "ocp"
    [ ("duration_s", VNull); ("stability_mV_min", VNum 1%float);
      ("sample_rate_Hz", VNum 1%float) ]
    "".

Definition eis_null_amplitude : Step.t :=
  Step.mk "step-0-4fzyo82mv" "eis"
    [ ("f_start_Hz", VNum 100000%float); ("f_end_Hz", VNum 0.1%float);
      ("amplitude_mV", VNull); ("dc_potential_V", VStr "OCP");
      ("points_per_decade", VNum 10%float) ]
    "".

(** The predicates of the conditioning rule. *)
Definition is_measurement (s : Step.t) : bool :=
  includes measurementTechs (Step.technique s).

Definition is_conditioning (s : Step.t) : bool :=
  includes conditioningTechs (Step.technique s).

(** The conditioning issue of a procedure whose first measurement step is at
    index [k]. *)
Definition conditioning_issue (k : Z) : Issue.t :=
  Issue.mk LEVEL.WARNING "DR006"
    [Issue.Text "Consider adding conditioning (OCP, CV, or purge) before first measurement"]
    None (Some k).

(** A step of the data model: its technique is in the catalog and its
    parameters are distinct keys of the technique's schema. *)
Definition conforms (step : Step.t) (tech : Technique.t) : Prop :=
  own TECHNIQUES (Step.technique step) = Some tech /\
  NoDup (keys (Step.params step)) /\
  incl (keys (Step.params step)) (keys (Technique.params tech)).

(** A cv step whose scan rate is 100 mV/s. *)
Definition cv_100 : Step.t :=
  Step.mk "step-0-4fzyo82mv" "cv"
    [ ("vertex1_V", VNum 0.05%float); ("vertex2_V", VNum 1.2%float);
      ("scan_rate_mV_s", VNum 100%float); ("cycles", VNum 3%float);
      ("start_potential_V", VNull); ("ir_compensation", VBool false) ]
    "".

End Fixtures.

(** ** The editor's handlers on the list of steps ([App.jsx])

    The handlers of the [App] component compute the next list of steps from
    the current one; each is given here as that function of the current
    list. *)

Module Editor.
Import JS Techniques Validation.


(** [l.filter((_, i) => p(i))], counting from [i]. *)
Fixpoint filter_index {A : Type} (p : Z -> bool) (l : list A) (i : Z) : list A :=
  match l with
  | [] => []
  | a :: rest =>
      if p i then a :: filter_index p rest (i + 1)%Z
      else filter_index p rest (i + 1)%Z
  end.

(** [removeStep]: the steps whose index is not [index]. *)
Definition removeStep (steps : list Step.t) (index : Z) : list Step.t :=
  filter_index (fun i => negb (i =? index)%Z) steps 0%Z.

(** [l[n] = x] for an index within the list. *)
Fixpoint replace_at {A : Type} (n : nat) (x : A) (l : list A) : list A :=
  match l, n with
  | [], _ => []
  | _ :: rest, O => x :: rest
  | a :: rest, S n' => a :: replace_at n' x rest
  end.


(** [updateStep]: [newSteps[index] = newStep] on a copy.  The handler is
    called with the index of a rendered step; at [steps.length] the
    assignment appends, and at any other index outside the list the array
    would get a hole or a property that is no element, which is no list of
    steps: [None]. *)
Definition updateStep (steps : list Step.t) (index : Z) (newStep : Step.t)
  : option (list Step.t) :=
  let len := Z.of_nat (List.length steps) in
  if ((0 <=? index) && (index <? len))%Z
  then Some (replace_at (Z.to_nat index) newStep steps)
  else if (index =? len)%Z then Some (steps ++ [newStep])
  else None.

(** *** Short keys on import *)

(** A character of the class [[A-Za-z_]]. *)
Definition is_word_letter (c : ascii) : bool :=
  let n := nat_of_ascii c in
  ((65 <=? n) && (n <=? 90) || (97 <=? n) && (n <=? 122) || (n =? 95))%nat.

Fixpoint all_word_letters (s : string) : bool :=
  match s with
  | EmptyString => true
  | String c rest => is_word_letter c && all_word_letters rest
  end.

(** [fullKey.replace(/_[A-Za-z_]+$/, '')]: the key is cut at its first
    underscore that is followed, up to the end, by one or more letters or
    underscores only. *)
Fixpoint cleanKey (fullKey : string) : string :=
  match fullKey with
  | EmptyString => EmptyString
  | String c rest =>
      if Ascii.eqb c "_"%char && negb (String.eqb rest "") && all_word_letters rest
      then EmptyString
      else String c (cleanKey rest)
  end.

(** [o[k] = a] for a primitive [a]: the name [__proto__] reaches the
    inherited setter, which ignores a primitive. *)
Definition assign {A : Type} (o : obj A) (k : string) (a : A) : obj A :=
  if String.eqb k "__proto__" then o else JS.set o k a.

(** The table from short and full keys to full keys, filled in schema
    order. *)
Definition paramKeyMap (schema : obj ParamSpec.t) : obj string :=
  fold_left (fun m fullKey => assign (assign m (cleanKey fullKey) fullKey) fullKey fullKey)
            (keys schema) [].

(** What [paramKeyMap[key] || key] names: a key, or a member of
    [Object.prototype] (an object, whose text names no parameter). *)
Inductive key_ref : Type :=
| Named (k : string)
| Builtin.

Definition resolveKey (m : obj string) (key : string) : key_ref :=
  match get m key with
  | Own fullKey => if String.eqb fullKey "" then Named key else Named fullKey
  | Inherited => Builtin
  | Undefined => Named key
  end.

(** [k in o]. *)
Definition has {A : Type} (o : obj A) (k : string) : bool :=
  match get o k with
  | Undefined => false
  | _ => true
  end.

Definition not_undefined (v : value) : bool :=
  match v with
  | VUndefined => false
  | _ => true
  end.

(** The loop of [reconstructSteps] over the entries of the saved
    parameters: an entry whose key resolves to a parameter of the schema and
    whose value is neither [null] nor [undefined] is stored on the step. *)
Definition importParams (schema : obj ParamSpec.t) (stepParams entries : obj value)
  : obj value :=
  fold_left
    (fun params entry =>
       match resolveKey (paramKeyMap schema) (fst entry) with
       | Named fullKey =>
           if has schema fullKey && not_null (snd entry) && not_undefined (snd entry)
           then assign params fullKey (snd entry)
           else params
       | Builtin => params
       end)
    entries stepParams.

End Editor.

(** ** Derived notions

    Predicates on issues and steps used to state properties of the
    validator. *)

Module Derived.
Import JS Techniques Validation.

(** An error carries a PV code, a warning a DR code. *)
Definition well_levelled (i : Issue.t) : Prop :=
  (Issue.level i = LEVEL.ERROR /\ prefix "PV" (Issue.code i) = true) \/
  (Issue.level i = LEVEL.WARNING /\ prefix "DR" (Issue.code i) = true).


(** No issue of level error. *)
Definition error_free (issues : list Issue.t) : bool :=
  negb (existsb (has_level LEVEL.ERROR) issues).

(** The step validates, and without error. *)
Definition step_valid (s : Step.t) : Prop :=
  exists issues, validateStep s = Return issues /\ error_free issues = true.

(** The verdict of [isValid] computed step by step: an exception of a step
    validation, or whether every step is free of errors. *)
Fixpoint verdicts (steps : list Step.t) : outcome bool :=
  match steps with
  | [] => Return true
  | s :: rest =>
      match validateStep s with
      | Throw e => Throw e
      | Return issues =>
          match verdicts rest with
          | Throw e => Throw e
          | Return b => Return (error_free issues && b)
          end
      end
  end.

(** The issue has one of the three levels of [LEVEL]. *)
Definition known_level (i : Issue.t) : bool :=
  has_level LEVEL.ERROR i || has_level LEVEL.WARNING i || has_level LEVEL.INFO i.

(** The three groups of [summarizeIssues]. *)
Definition errors_of (issues : list Issue.t) : list Issue.t :=
  fst (fst (summarizeIssues issues)).
Definition warnings_of (issues : list Issue.t) : list Issue.t :=
  snd (fst (summarizeIssues issues)).
Definition infos_of (issues : list Issue.t) : list Issue.t :=
  snd (summarizeIssues issues).

(** The step with one more parameter entry, placed after the first [n]. *)
Definition with_entry (step : Step.t) (n : nat) (key : string) (v : value) : Step.t :=
  Step.mk (Step.id step) (Step.technique step)
          (firstn n (Step.params step) ++ (key, v) :: skipn n (Step.params step))
          (Step.tag step).

End Derived.

(** * Properties *)

Import JS Techniques Validation Generators Fixtures.

(** ** Property reads *)

Lemma own_In {A : Type} (o : obj A) (k : string) (a : A) :
  own o k = Some a -> In (k, a) o.
Proof.
  induction o as [|[k' a'] rest IH]; simpl; [discriminate|].
  destruct (String.eqb_spec k' k) as [->|_].
  - intros [= ->]. now left.
  - intros H. right. now apply IH.
Qed.

Lemma own_None {A : Type} (o : obj A) (k : string) :
  own o k = None <-> ~ In k (keys o).
Proof.
  induction o as [|[k' a'] rest IH]; simpl.
  - tauto.
  - destruct (String.eqb_spec k' k) as [->|Hne].
    + split; [discriminate | intros H; exfalso; apply H; now left].
    + rewrite IH. tauto.
Qed.

Lemma own_NoDup {A : Type} (o : obj A) (k : string) (a : A) :
  NoDup (keys o) -> In (k, a) o -> own o k = Some a.
Proof.
  induction o as [|[k' a'] rest IH]; simpl; [tauto|].
  intros Hnd [Heq|Hin].
  - injection Heq as -> ->. now rewrite String.eqb_refl.
  - inversion Hnd as [|? ? Hnotin Hnd']; subst.
    destruct (String.eqb_spec k' k) as [->|_].
    + exfalso. apply Hnotin. unfold keys. now apply (in_map fst _ (k, a)).
    + now apply IH.
Qed.

Lemma inherited_spec (k : string) :
  inherited k = true <-> In k Object_prototype.
Proof.
  unfold inherited. rewrite existsb_exists. split.
  - intros (x & Hin & Heq). apply String.eqb_eq in Heq. now subst.
  - intros Hin. exists k. split; [assumption | apply String.eqb_refl].
Qed.

(** A read yields [undefined] exactly for the names that are neither own
    properties nor members of [Object.prototype]. *)
Lemma get_Undefined {A : Type} (o : obj A) (k : string) :
  get o k = Undefined <-> ~ In k (keys o) /\ ~ In k Object_prototype.
Proof.
  unfold get. destruct (own o k) eqn:Hown.
  - split; [discriminate|]. intros [Hk _]. apply own_None in Hk. congruence.
  - apply own_None in Hown. destruct (inherited k) eqn:Hinh.
    + apply inherited_spec in Hinh. split; [discriminate | tauto].
    + split; [|reflexivity]. intros _. split; [assumption|].
      intros Hin. apply inherited_spec in Hin. congruence.
Qed.

Lemma get_Own {A : Type} (o : obj A) (k : string) (a : A) :
  get o k = Own a <-> own o k = Some a.
Proof.
  unfold get. destruct (own o k); [|destruct (inherited k)];
    split; congruence.
Qed.

(** No catalog key is a member of [Object.prototype]. *)
Lemma catalog_keys_not_inherited :
  Forall (fun id => inherited id = false) (keys TECHNIQUES).
Proof. repeat constructor. Qed.

(** ** The catalog *)

(** C7: the catalog registers exactly 12 distinct techniques and exactly the
    5 categories measurement, voltammetry, impedance, chronomethod and
    auxiliary; every technique is registered under its own id and its
    category field names one of the categories (the one that lists it); each
    technique id occurs exactly once in the categories' lists; every listed
    id resolves to a registered technique. *)
Theorem catalog_categories_consistent :
  List.length TECHNIQUES = 12%nat /\
  NoDup (keys TECHNIQUES) /\
  keys TECHNIQUE_CATEGORIES =
    ["measurement"; "voltammetry"; "impedance"; "chronomethod"; "auxiliary"] /\
  Forall (fun e =>
            Technique.id (snd e) = fst e /\
            exists c, get TECHNIQUE_CATEGORIES (Technique.category (snd e)) = Own c /\
                      In (fst e) (Category.techniques c))
         TECHNIQUES /\
  Forall (fun id => count_occ string_dec category_ids id = 1%nat) (keys TECHNIQUES) /\
  Forall (fun id => exists tech, get TECHNIQUES id = Own tech) category_ids.
Proof.
  split; [reflexivity|].
  split; [repeat constructor; simpl; intuition discriminate|].
  split; [reflexivity|].
  split; [|split].
  - repeat constructor; simpl;
      (eexists; split; [reflexivity | simpl; tauto]).
  - repeat constructor.
  - repeat constructor; eexists; reflexivity.
Qed.

(** ** Default steps *)

(** Settles a goal about [k] from [H : In k l] for a literal list [l], one
    member at a time. *)
Ltac by_cases_of H :=
  simpl in H;
  repeat (destruct H as [H|H]; [rewrite <- H; reflexivity|]);
  contradiction.

(** The parameters of a default step, read off the schema. *)
Lemma default_params_catalog :
  Forall (fun e =>
            default_params (Technique.params (snd e)) =
            map (fun kc => (fst kc, ParamSpec.default (snd kc)))
                (Technique.params (snd e)))
         TECHNIQUES.
Proof. repeat constructor. Qed.

Lemma catalog_schema_NoDup :
  Forall (fun e => NoDup (keys (Technique.params (snd e)))) TECHNIQUES.
Proof.
  repeat apply Forall_cons; try apply Forall_nil;
    repeat constructor; simpl; intuition discriminate.
Qed.

(** For a technique of the catalog, the default step carries exactly the
    keys of the schema, in schema order, each bound to its default. *)
Lemma createDefaultStep_catalog (now : Z) (rand id : string) (tech : Technique.t) :
  own TECHNIQUES id = Some tech ->
  exists step,
    createDefaultStep now rand id = Return step /\
    Step.technique step = id /\
    Step.tag step = "" /\
    keys (Step.params step) = keys (Technique.params tech) /\
    forall key config,
      own (Technique.params tech) key = Some config ->
      own (Step.params step) key = Some (ParamSpec.default config).
Proof.
  intros Hown. unfold createDefaultStep.
  apply get_Own in Hown as Hget. rewrite Hget.
  eexists. split; [reflexivity|]. simpl.
  apply own_In in Hown.
  pose proof default_params_catalog as Hd.
  pose proof catalog_schema_NoDup as Hn.
  rewrite Forall_forall in Hd, Hn.
  specialize (Hd _ Hown). specialize (Hn _ Hown). simpl in Hd, Hn.
  rewrite Hd. repeat split.
  - unfold keys. rewrite map_map. reflexivity.
  - intros key config Hk. apply own_In in Hk.
    apply own_NoDup.
    + unfold keys. rewrite map_map. exact Hn.
    + apply (in_map (fun kc => (fst kc, ParamSpec.default (snd kc))) _ _ Hk).
Qed.

(** An identifier that is neither in the catalog nor a member of
    [Object.prototype] is rejected as an unknown technique. *)
Lemma createDefaultStep_unknown (now : Z) (rand id : string) :
  ~ In id (keys TECHNIQUES) -> ~ In id Object_prototype ->
  createDefaultStep now rand id = Throw (Error ("Unknown technique: " ++ id)).
Proof.
  intros H1 H2. unfold createDefaultStep.
  now rewrite (proj2 (get_Undefined TECHNIQUES id) (conj H1 H2)).
Qed.

(** No identifier outside the catalog yields a step. *)
Lemma createDefaultStep_absent_throws (now : Z) (rand id : string) :
  ~ In id (keys TECHNIQUES) ->
  exists e, createDefaultStep now rand id = Throw e.
Proof.
  intros H. apply own_None in H. unfold createDefaultStep, get. rewrite H.
  destruct (inherited id); eexists; reflexivity.
Qed.

(** An identifier that names a member of [Object.prototype] ends in a
    [TypeError]. *)
Lemma createDefaultStep_inherited (now : Z) (rand id : string) :
  In id Object_prototype -> createDefaultStep now rand id = Throw TypeError.
Proof. intros H. by_cases_of H. Qed.

(** C6, at the failing input: [toString] is not a technique of the catalog,
    yet [createDefaultStep] does not report an unknown technique for it; the
    inherited property passes the [!tech] test and the call ends in a
    [TypeError]. *)
Theorem createDefaultStep_inherited_name :
  ~ In "toString" (keys TECHNIQUES) /\
  createDefaultStep 0 "0.4fzyo82mvyr" "toString" = Throw TypeError /\
  createDefaultStep 0 "0.4fzyo82mvyr" "toString"
    <> Throw (Error "Unknown technique: toString").
Proof.
  split; [simpl; intuition discriminate|].
  split; [reflexivity | discriminate].
Qed.

(** ** Per-step validation *)

(** A step whose technique is neither in the catalog nor a member of
    [Object.prototype] gets the single unknown-technique error. *)
Lemma validateStep_unknown (step : Step.t) :
  ~ In (Step.technique step) (keys TECHNIQUES) ->
  ~ In (Step.technique step) Object_prototype ->
  validateStep step = Return [unknown_technique (Step.technique step)].
Proof.
  intros H1 H2. unfold validateStep.
  now rewrite (proj2 (get_Undefined TECHNIQUES _) (conj H1 H2)).
Qed.

Lemma unknown_technique_fields (technique : string) :
  Issue.code (unknown_technique technique) = "PV000" /\
  Issue.level (unknown_technique technique) = LEVEL.ERROR.
Proof. split; reflexivity. Qed.

(** The technique blocks are silent for a technique they do not name. *)
Lemma technique_rules_inherited (step : Step.t) :
  inherited (Step.technique step) = true -> technique_rules step = [].
Proof.
  intros H. apply inherited_spec in H. unfold technique_rules.
  by_cases_of H.
Qed.

(** For a technique identifier that names a member of [Object.prototype]
    the validator reports nothing on a step without parameters and throws on
    any other step. *)
Lemma validateStep_inherited (step : Step.t) :
  In (Step.technique step) Object_prototype ->
  validateStep step =
    match Step.params step with
    | [] => Return []
    | _ :: _ => Throw TypeError
    end.
Proof.
  intros H. unfold validateStep, get.
  assert (Hown : own TECHNIQUES (Step.technique step) = None).
  { by_cases_of H. }
  rewrite Hown. apply inherited_spec in H. rewrite H.
  rewrite (technique_rules_inherited step H). reflexivity.
Qed.

(** C3, at the failing input: [toString] is not a technique of the catalog,
    yet a step that names it gets no PV000 issue; without parameters the
    result is the empty list, and with a parameter the call throws. *)
Theorem validateStep_inherited_name :
  ~ In "toString" (keys TECHNIQUES) /\
  validateStep (Step.mk "step-1" "toString" [] "") = Return [] /\
  validateStep (Step.mk "step-1" "toString" [("duration_s", VNum 60%float)] "")
    = Throw TypeError.
Proof.
  split; [simpl; intuition discriminate|].
  split; reflexivity.
Qed.

(** *** The bounds sweep *)

Lemma check_bounds_fields (tech : Technique.t) (entry : string * value) (i : Issue.t) :
  In i (check_bounds tech entry) ->
  Issue.level i = LEVEL.ERROR /\ Issue.code i = "PV000" /\
  Issue.param i = Some (fst entry).
Proof.
  destruct entry as [key v]. unfold check_bounds.
  destruct (get (Technique.params tech) key) as [paramDef| |]; simpl; try tauto.
  intros Hin. apply in_app_or in Hin.
  destruct Hin as [Hin|Hin];
    [destruct (ParamSpec.min paramDef) as [m|] | destruct (ParamSpec.max paramDef) as [m|]];
    simpl in Hin; try tauto;
    [destruct (lt v m) | destruct (gt v m)]; simpl in Hin; try tauto;
    destruct Hin as [<-|[]]; repeat split.
Qed.

(** The sweep contributes only PV000 errors. *)
Lemma sweep_only_PV000 (tech : Technique.t) (params : obj value) (i : Issue.t) :
  In i (flat_map (check_bounds tech) params) ->
  Issue.level i = LEVEL.ERROR /\ Issue.code i = "PV000".
Proof.
  intros Hin. apply in_flat_map in Hin as (entry & _ & Hin).
  apply check_bounds_fields in Hin. tauto.
Qed.

(** An entry yields a sweep issue only when its value is below the declared
    min or above the declared max of its schema entry. *)
Lemma check_bounds_violation (tech : Technique.t) (key : string) (v : value) :
  check_bounds tech (key, v) <> [] ->
  exists paramDef,
    own (Technique.params tech) key = Some paramDef /\
    ((exists m, ParamSpec.min paramDef = Some m /\ lt v m = true) \/
     (exists m, ParamSpec.max paramDef = Some m /\ gt v m = true)).
Proof.
  unfold check_bounds. destruct (get (Technique.params tech) key) as [paramDef| |] eqn:Hget;
    try congruence.
  apply get_Own in Hget. intros Hne. exists paramDef. split; [assumption|].
  destruct (ParamSpec.min paramDef) as [m|]; [destruct (lt v m) eqn:Hlt|].
  - left. now exists m.
  - destruct (ParamSpec.max paramDef) as [m'|]; [destruct (gt v m') eqn:Hgt|];
      simpl in Hne; try congruence.
    right. now exists m'.
  - destruct (ParamSpec.max paramDef) as [m'|]; [destruct (gt v m') eqn:Hgt|];
      simpl in Hne; try congruence.
    right. now exists m'.
Qed.

(** C2: for a step of any catalog technique, the issues are those of the
    technique-specific rules followed by those of the bounds sweep, and for
    every parameter of the step whose schema entry declares a min above the
    value, or a max below it, the sweep holds an error-level issue with code
    PV000 that names the parameter; its message is the label of the
    parameter and the violated bound. *)
Theorem validateStep_bounds_sweep
  (step : Step.t) (tech : Technique.t) (key : string) (v : value)
  (paramDef : ParamSpec.t) :
  own TECHNIQUES (Step.technique step) = Some tech ->
  In (key, v) (Step.params step) ->
  own (Technique.params tech) key = Some paramDef ->
  (exists m, ParamSpec.min paramDef = Some m /\ lt v m = true) \/
  (exists m, ParamSpec.max paramDef = Some m /\ gt v m = true) ->
  exists sweep i,
    validateStep step = Return (technique_rules step ++ sweep) /\
    In i sweep /\
    Issue.level i = LEVEL.ERROR /\ Issue.code i = "PV000" /\
    Issue.param i = Some key /\
    exists m, i = below_minimum key paramDef m \/ i = above_maximum key paramDef m.
Proof.
  intros Htech Hin Hdef Hviol.
  unfold validateStep. rewrite (proj2 (get_Own _ _ _) Htech).
  exists (flat_map (check_bounds tech) (Step.params step)).
  assert (Hex : exists i m,
             In i (check_bounds tech (key, v)) /\
             (i = below_minimum key paramDef m \/ i = above_maximum key paramDef m)).
  { unfold check_bounds. rewrite (proj2 (get_Own _ _ _) Hdef).
    destruct Hviol as [(m & Hm & Hlt)|(m & Hm & Hgt)].
    - exists (below_minimum key paramDef m), m. split; [|now left].
      apply in_or_app. left. rewrite Hm. unfold when. rewrite Hlt. now left.
    - exists (above_maximum key paramDef m), m. split; [|now right].
      apply in_or_app. right. rewrite Hm. unfold when. rewrite Hgt. now left. }
  destruct Hex as (i & m & Hi & Him). exists i.
  split; [reflexivity|]. split.
  - apply in_flat_map. exists (key, v). now split.
  - apply check_bounds_fields in Hi. simpl in Hi.
    repeat split; try tauto. now exists m.
Qed.

(** A cv step with a scan rate of 15000 mV/s gets PV001 from the cv rules
    and, after it, PV000 from the sweep. *)
Lemma validateStep_bounds_sweep_witness :
  own TECHNIQUES (Step.technique cv_fast) = Some cv /\
  issue_codes (technique_rules cv_fast) = ["PV001"] /\
  exists sweep i,
    validateStep cv_fast = Return (technique_rules cv_fast ++ sweep) /\
    In i sweep /\
    Issue.level i = LEVEL.ERROR /\ Issue.code i = "PV000" /\
    Issue.param i = Some "scan_rate_mV_s" /\
    exists m,
      i = below_minimum "scan_rate_mV_s"
            (ParamSpec.mk "Scan rate" "number" (VNum 50%float) (Some "mV/s")
                          (Some 0.1%float) (Some 10000%float) None) m \/
      i = above_maximum "scan_rate_mV_s"
            (ParamSpec.mk "Scan rate" "number" (VNum 50%float) (Some "mV/s")
                          (Some 0.1%float) (Some 10000%float) None) m.
Proof.
  split; [reflexivity|]. split; [reflexivity|].
  apply (validateStep_bounds_sweep cv_fast cv "scan_rate_mV_s" (VNum 15000%float)
           (ParamSpec.mk "Scan rate" "number" (VNum 50%float) (Some "mV/s")
                         (Some 0.1%float) (Some 10000%float) None)).
  - reflexivity.
  - simpl. tauto.
  - reflexivity.
  - right. exists 10000%float. split; reflexivity.
Defined.

Lemma cv_fast_codes :
  fmap issue_codes (validateStep cv_fast) = Return ["PV001"; "PV000"] /\
  bind (default_with "cv" "scan_rate_mV_s" (VNum 15000%float)) Return = Return cv_fast.
Proof. split; reflexivity. Qed.

(** *** The cases of the test suite *)

(** The issue codes of the default step of a technique with the given
    parameters replaced. *)
Lemma validateStep_test_suite :
  let run technique key v :=
    fmap issue_codes (bind (default_with technique key v) validateStep) in
  run "ocp" "duration_s" (VNum 0.01%float) = Return ["DR004"; "PV000"] /\
  run "cv" "scan_rate_mV_s" (VNum 15000%float) = Return ["PV001"; "PV000"] /\
  run "lsv" "scan_rate_mV_s" (VNum 15000%float) = Return ["PV001"; "PV000"] /\
  run "cv" "scan_rate_mV_s" (VNum 0.05%float) = Return ["PV002"; "PV000"] /\
  run "lsv" "scan_rate_mV_s" (VNum 0.05%float) = Return ["PV002"; "PV000"] /\
  run "cv" "cycles" (VNum 0%float) = Return ["PV003"; "PV000"] /\
  run "cv" "vertex1_V" (VNum 1.2%float) = Return ["PV004"] /\
  run "eis" "f_start_Hz" (VNum 0.1%float) = Return ["PV005"] /\
  run "eis" "f_start_Hz" (VNum 20000000%float) = Return ["PV006"; "PV000"] /\
  run "eis" "f_end_Hz" (VNum 0.0000001%float) = Return ["PV007"; "PV000"] /\
  run "eis" "amplitude_mV" (VNum (-5)%float) = Return ["PV008"; "PV000"] /\
  run "eis" "amplitude_mV" (VNum 150%float) = Return ["PV009"; "PV000"] /\
  run "ca" "potential_V" (VNum 15%float) = Return ["PV010"; "DR001"; "PV000"] /\
  run "lsv" "start_V" (VNum 12%float) = Return ["PV010"; "PV000"] /\
  run "ocp" "duration_s" (VNum (-1)%float) = Return ["PV011"; "PV000"] /\
  run "ca" "duration_s" (VNum 0%float) = Return ["PV011"; "PV000"] /\
  run "purge" "duration_min" (VNum 0.5%float) = Return ["PV011"; "PV000"] /\
  run "ca" "potential_V" (VNum 3%float) = Return ["DR001"] /\
  run "ocp" "duration_s" (VNum 10%float) = Return ["DR004"] /\
  run "eis" "amplitude_mV" (VNum 20%float) = Return ["DR005"] /\
  run "purge" "duration_min" (VNum 5%float) = Return ["DR007"] /\
  run "cp" "current_mA" (VNum 200%float) = Return ["DR009"] /\
  run "cv" "cycles" (VNum 2%float) = Return ["DR011"] /\
  validateStep (Step.mk "step-1" "nonexistent" [] "")
    = Return [unknown_technique "nonexistent"].
Proof. repeat split. Qed.

(** The default step of every technique of the catalog validates without
    issue. *)
Lemma validateStep_defaults :
  Forall (fun id => validateStep (default_step id) = Return []) (keys TECHNIQUES).
Proof. repeat constructor. Qed.

(** *** Null parameters *)

(** [null] converts to zero, so a comparison with [null] on the left is the
    comparison of zero with the bound. *)
Lemma null_compares_as_zero (c : float) :
  lt VNull c = PrimFloat.ltb zero c /\
  le VNull c = PrimFloat.leb zero c /\
  gt VNull c = PrimFloat.ltb c zero /\
  ge VNull c = PrimFloat.leb c zero.
Proof. repeat split. Qed.

(** C1, at the failing inputs: with the referenced parameter set to [null],
    a cv step still gets PV003 for [cycles], an ocp step PV011 for
    [duration_s] and an eis step PV008 for [amplitude_mV]; the comparisons
    [cycles < 1], [duration_s <= 0] and [amplitude_mV <= 0] read [null] as
    zero. *)
Theorem validateStep_null_parameter_fires :
  (exists rest,
      validateStep cv_null_cycles
      = Return (issue LEVEL.ERROR "PV003" "At least 1 cycle required" (Some "cycles")
                  :: rest)) /\
  (exists rest,
      validateStep ocp_null_duration
      = Return (issue LEVEL.ERROR "PV011" "Duration must be positive"
                      (Some "duration_s") :: rest)) /\
  (exists rest,
      validateStep eis_null_amplitude
      = Return (issue LEVEL.ERROR "PV008" "Amplitude must be positive"
                      (Some "amplitude_mV") :: rest)).
Proof. repeat split; eexists; reflexivity. Qed.

(** The three steps are the default steps with the parameter replaced, and
    each also gets the PV000 of the bounds sweep; a null end frequency and a
    null purge duration fire PV007 and PV011 in the same way. *)
Lemma validateStep_null_codes :
  default_with "cv" "cycles" VNull = Return cv_null_cycles /\
  default_with "ocp" "duration_s" VNull = Return ocp_null_duration /\
  default_with "eis" "amplitude_mV" VNull = Return eis_null_amplitude /\
  fmap issue_codes (validateStep cv_null_cycles) = Return ["PV003"; "PV000"] /\
  fmap issue_codes (validateStep ocp_null_duration) = Return ["PV011"; "PV000"] /\
  fmap issue_codes (validateStep eis_null_amplitude) = Return ["PV008"; "PV000"] /\
  fmap issue_codes (bind (default_with "eis" "f_end_Hz" VNull) validateStep)
    = Return ["PV007"; "PV000"] /\
  fmap issue_codes (bind (default_with "purge" "duration_min" VNull) validateStep)
    = Return ["PV011"; "PV000"].
Proof. repeat split. Qed.

(** The rules with an explicit null test do stay silent: a cv step with a
    null vertex gets no PV004 and an eis step with a null start frequency no
    PV005. *)
Lemma validateStep_null_guarded :
  fmap issue_codes (bind (default_with "cv" "vertex1_V" VNull) validateStep) = Return [] /\
  fmap issue_codes (bind (default_with "eis" "f_start_Hz" VNull) validateStep)
    = Return ["PV000"].
Proof. repeat split. Qed.

(** ** Procedure-level validation *)

(** C10: the result of [validateProcedure] does not depend on the metadata
    it is given. *)
Theorem validateProcedure_ignores_metadata
  (steps : list Step.t) (m1 m2 : Metadata) :
  validateProcedure steps m1 = validateProcedure steps m2.
Proof. unfold validateProcedure. reflexivity. Qed.

(** *** The conditioning rule *)

Lemma findIndex_from_app {A : Type} (p : A -> bool)
  (before : list A) (s : A) (after : list A) (i : Z) :
  (forall x, In x before -> p x = false) -> p s = true ->
  findIndex_from p (before ++ s :: after) i = (i + Z.of_nat (List.length before))%Z.
Proof.
  revert i. induction before as [|b before IH]; intros i Hbefore Hs; simpl.
  - rewrite Hs. lia.
  - rewrite (Hbefore b (or_introl eq_refl)).
    rewrite IH; [lia | | assumption].
    intros x Hx. apply Hbefore. now right.
Qed.

(** [findIndex] either finds no match, or splits the list at its first
    match. *)
Lemma findIndex_from_cases {A : Type} (p : A -> bool) (l : list A) (i : Z) :
  (findIndex_from p l i = (-1)%Z /\ forall x, In x l -> p x = false) \/
  (exists before s after,
      l = before ++ s :: after /\
      (forall x, In x before -> p x = false) /\ p s = true /\
      findIndex_from p l i = (i + Z.of_nat (List.length before))%Z).
Proof.
  revert i. induction l as [|a l IH]; intros i; simpl.
  - left. split; [reflexivity | tauto].
  - destruct (p a) eqn:Ha.
    + right. exists [], a, l. simpl. repeat split; try tauto. lia.
    + destruct (IH (i + 1)%Z) as [[Hnone Hall]|(before & s & after & -> & Hb & Hs & Hidx)].
      * left. split; [assumption|]. intros x [<-|Hx]; auto.
      * right. exists (a :: before), s, after. simpl.
        repeat split; try assumption.
        -- intros x [<-|Hx]; auto.
        -- rewrite Hidx. lia.
Qed.

(** [slice(0, n)] of an array that is at least [n] long is its first [n]
    elements. *)
Lemma slice_prefix {A : Type} (before rest : list A) :
  slice (before ++ rest) 0 (Z.of_nat (List.length before)) = before.
Proof.
  unfold slice. rewrite length_app.
  replace (0 <? 0)%Z with false by reflexivity.
  destruct (Z.ltb_spec (Z.of_nat (List.length before)) 0) as [Hneg|_]; [lia|].
  rewrite Z.min_l by lia. rewrite Z.min_l by lia.
  rewrite Z.sub_0_r, Z.max_l by lia. rewrite Nat2Z.id. simpl.
  rewrite firstn_app, firstn_all, Nat.sub_diag. simpl. apply app_nil_r.
Qed.

Lemma existsb_false {A : Type} (p : A -> bool) (l : list A) :
  existsb p l = false <-> forall x, In x l -> p x = false.
Proof.
  induction l as [|a l IH]; simpl.
  - tauto.
  - rewrite orb_false_iff, IH. split.
    + intros [Ha Hl] x [<-|Hx]; auto.
    + intros H. split; auto.
Qed.

(** The shape of the result: the three rules in source order. *)
Lemma validateProcedure_shape (steps : list Step.t) (metadata : Metadata) :
  exists c6 c7 c8 : bool,
    validateProcedure steps metadata =
      when c6 (conditioning_issue (findIndex is_measurement steps)) ++
      when c7 (issue LEVEL.WARNING "DR007"
                 "Consider adding gas purge before LSV for defined atmosphere (O₂ for ORR, N₂ for background)"
                 None) ++
      when c8 (issue LEVEL.WARNING "DR008"
                 "iR compensation enabled but no EIS measurement to determine Ru" None) /\
    c6 = ((0 <? findIndex is_measurement steps)%Z
          && negb (existsb is_conditioning
                     (slice steps 0 (findIndex is_measurement steps)))).
Proof. do 3 eexists. split; reflexivity. Qed.

(** Every issue of [validateProcedure] is a warning. *)
Lemma validateProcedure_warnings (steps : list Step.t) (metadata : Metadata)
  (i : Issue.t) :
  In i (validateProcedure steps metadata) -> Issue.level i = LEVEL.WARNING.
Proof.
  destruct (validateProcedure_shape steps metadata) as (c6 & c7 & c8 & -> & _).
  destruct c6, c7, c8; simpl; intuition (subst; reflexivity).
Qed.

(** The conditioning rule fires exactly on a procedure whose first
    measurement step has steps before it, none of them conditioning. *)
Lemma DR006_emitted_iff (steps : list Step.t) (metadata : Metadata) :
  (exists i, In i (validateProcedure steps metadata) /\ Issue.code i = "DR006")
  <->
  (exists before s after,
      steps = before ++ s :: after /\
      is_measurement s = true /\
      (forall x, In x before -> is_measurement x = false) /\
      before <> [] /\
      (forall x, In x before -> is_conditioning x = false)).
Proof.
  destruct (validateProcedure_shape steps metadata) as (c6 & c7 & c8 & -> & Hc6).
  unfold findIndex in *.
  split.
  - intros (i & Hin & Hcode).
    assert (c6 = true) as ->.
    { destruct c6; [reflexivity|].
      destruct c7, c8; simpl in Hin;
        intuition (subst; simpl in Hcode; discriminate). }
    symmetry in Hc6. apply andb_true_iff in Hc6 as [Hpos Hcond].
    apply Z.ltb_lt in Hpos. apply negb_true_iff in Hcond.
    destruct (findIndex_from_cases is_measurement steps 0)
      as [[Hnone _]|(before & s & after & Hsplit & Hb & Hs & Hidx)]; [lia|].
    exists before, s, after. rewrite Hidx, Hsplit in Hcond. simpl in Hcond.
    rewrite slice_prefix in Hcond.
    repeat split; try assumption.
    + intros ->. rewrite Hidx in Hpos. simpl in Hpos. lia.
    + now apply existsb_false.
  - intros (before & s & after & -> & Hs & Hb & Hne & Hcond).
    assert (Hidx : findIndex_from is_measurement (before ++ s :: after) 0
                   = Z.of_nat (List.length before))
      by (rewrite findIndex_from_app by assumption; lia).
    assert (c6 = true) as ->.
    { rewrite Hc6, Hidx, slice_prefix.
      apply andb_true_iff. split.
      - apply Z.ltb_lt. destruct before; [contradiction | simpl; lia].
      - apply negb_true_iff. now apply existsb_false. }
    eexists. split; [left; reflexivity | reflexivity].
Qed.

(** The first match of a list is unique. *)
Lemma first_match_unique {A : Type} (p : A -> bool)
  (b1 : list A) (s1 : A) (a1 b2 : list A) (s2 : A) (a2 : list A) :
  b1 ++ s1 :: a1 = b2 ++ s2 :: a2 ->
  (forall x, In x b1 -> p x = false) -> p s1 = true ->
  (forall x, In x b2 -> p x = false) -> p s2 = true ->
  b1 = b2.
Proof.
  revert b2. induction b1 as [|x b1 IH]; intros [|y b2] Heq H1 Hs1 H2 Hs2;
    simpl in Heq.
  - reflexivity.
  - injection Heq as <- _. rewrite (H2 s1 (or_introl eq_refl)) in Hs1.
    discriminate.
  - injection Heq as -> _. rewrite (H1 s2 (or_introl eq_refl)) in Hs2.
    discriminate.
  - injection Heq as <- Heq. f_equal.
    apply (IH b2 Heq); auto.
    + intros z Hz. apply H1. now right.
    + intros z Hz. apply H2. now right.
Qed.

(** The two technique lists of the conditioning rule, name by name. *)
Lemma includes_spec (l : list string) (x : string) :
  includes l x = true <-> In x l.
Proof.
  unfold includes. rewrite existsb_exists. split.
  - intros (y & Hin & Heq). apply String.eqb_eq in Heq. now subst.
  - intros Hin. exists x. split; [assumption | apply String.eqb_refl].
Qed.

Lemma is_measurement_true (s : Step.t) :
  is_measurement s = true <-> In (Step.technique s) ["lsv"; "cv"; "eis"].
Proof. apply includes_spec. Qed.

Lemma is_measurement_false (s : Step.t) :
  is_measurement s = false <-> ~ In (Step.technique s) ["lsv"; "cv"; "eis"].
Proof.
  rewrite <- is_measurement_true. destruct (is_measurement s); split; intros H;
    try reflexivity; try discriminate; congruence.
Qed.

Lemma is_conditioning_false (s : Step.t) :
  is_conditioning s = false <-> ~ In (Step.technique s) ["cv"; "purge"; "ocp"].
Proof.
  unfold is_conditioning. rewrite <- (includes_spec conditioningTechs).
  destruct (includes conditioningTechs (Step.technique s)); split; intros H;
    try reflexivity; try discriminate; congruence.
Qed.

(** C5: [validateProcedure] emits an issue with code DR006 exactly when the
    steps split as [before ++ s :: after] with [s] the first step whose
    technique is lsv, cv or eis, [before] not empty (the index of [s] is
    greater than 0) and no step of [before] of technique cv, purge or ocp.
    The issue is then a warning that carries the index of [s].
    No DR006 is emitted when no step has technique lsv, cv or eis, nor when
    the first step has one of them. *)
Theorem validateProcedure_DR006_iff (steps : list Step.t) (metadata : Metadata) :
  ((exists i, In i (validateProcedure steps metadata) /\ Issue.code i = "DR006")
   <->
   (exists before s after,
       steps = before ++ s :: after /\
       In (Step.technique s) ["lsv"; "cv"; "eis"] /\
       (forall x, In x before -> ~ In (Step.technique x) ["lsv"; "cv"; "eis"]) /\
       before <> [] /\
       (forall x, In x before -> ~ In (Step.technique x) ["cv"; "purge"; "ocp"]))) /\
  (forall before s after i,
      steps = before ++ s :: after ->
      In (Step.technique s) ["lsv"; "cv"; "eis"] ->
      (forall x, In x before -> ~ In (Step.technique x) ["lsv"; "cv"; "eis"]) ->
      In i (validateProcedure steps metadata) -> Issue.code i = "DR006" ->
      Issue.level i = "warning" /\
      Issue.stepIndex i = Some (Z.of_nat (List.length before))) /\
  ((forall s, In s steps -> ~ In (Step.technique s) ["lsv"; "cv"; "eis"]) ->
   forall i, In i (validateProcedure steps metadata) -> Issue.code i <> "DR006") /\
  ((exists s rest, steps = s :: rest /\ In (Step.technique s) ["lsv"; "cv"; "eis"]) ->
   forall i, In i (validateProcedure steps metadata) -> Issue.code i <> "DR006").
Proof.
  pose proof (DR006_emitted_iff steps metadata) as Hiff.
  split; [|split; [|split]].
  - rewrite Hiff. split;
      intros (before & s & after & Hsplit & Hs & Hb & Hne & Hcond);
      exists before, s, after; (split; [exact Hsplit|]).
    + split; [now apply is_measurement_true|]. split; [|split; [exact Hne|]].
      * intros x Hx. apply is_measurement_false. now apply Hb.
      * intros x Hx. apply is_conditioning_false. now apply Hcond.
    + split; [now apply is_measurement_true|]. split; [|split; [exact Hne|]].
      * intros x Hx. apply is_measurement_false. now apply Hb.
      * intros x Hx. apply is_conditioning_false. now apply Hcond.
  - intros before s after i -> Hs Hb Hin Hcode.
    assert (Hidx : findIndex is_measurement (before ++ s :: after)
                   = Z.of_nat (List.length before)).
    { unfold findIndex. rewrite findIndex_from_app.
      - lia.
      - intros x Hx. apply is_measurement_false. now apply Hb.
      - now apply is_measurement_true. }
    destruct (validateProcedure_shape (before ++ s :: after) metadata)
      as (c6 & c7 & c8 & Heq & _).
    rewrite Heq in Hin. rewrite Hidx in Hin.
    destruct c6, c7, c8; simpl in Hin;
      intuition (subst; simpl in *; try discriminate; reflexivity).
  - intros Hnone i Hin Hcode.
    destruct (proj1 Hiff (ex_intro _ i (conj Hin Hcode)))
      as (before & s & after & -> & Hs & _).
    apply is_measurement_true in Hs. revert Hs. apply Hnone.
    apply in_or_app. right. now left.
  - intros (s0 & rest & -> & Hs0) i Hin Hcode.
    apply is_measurement_true in Hs0.
    destruct (proj1 Hiff (ex_intro _ i (conj Hin Hcode)))
      as (before & s & after & Hsplit & Hs & Hb & Hne & _).
    apply Hne.
    symmetry. apply (first_match_unique is_measurement [] s0 rest before s after);
      simpl; auto. tauto.
Qed.

(** The emitted issue is a warning that carries the index of the first
    measurement step. *)
Lemma validateProcedure_DR006_issue (steps : list Step.t) (metadata : Metadata)
  (i : Issue.t) :
  In i (validateProcedure steps metadata) -> Issue.code i = "DR006" ->
  i = conditioning_issue (findIndex is_measurement steps).
Proof.
  destruct (validateProcedure_shape steps metadata) as (c6 & c7 & c8 & -> & _).
  destruct c6, c7, c8; simpl;
    intuition (subst; simpl in *; try discriminate; reflexivity).
Qed.

Lemma validateProcedure_examples :
  issue_codes (validateProcedure [default_step "cv"] []) = [] /\
  issue_codes (validateProcedure [default_step "ocp"; default_step "lsv"] []) = ["DR007"] /\
  issue_codes (validateProcedure [default_step "ca"; default_step "cv"] []) = ["DR006"] /\
  issue_codes (validateProcedure [default_step "ca"; default_step "ca"] []) = [] /\
  issue_codes (validateProcedure
           [default_step "purge"; default_step "ocp"; default_step "cv";
            default_step "eis"] []) = [] /\
  issue_codes (validateProcedure [cv_fast; default_with_ir] []) = ["DR008"].
Proof. repeat split. Qed.

(** ** Validity of a procedure *)

(** [flatMap] returns the concatenation of the per-step results when every
    call returns. *)
Lemma flatMap_Return {A B : Type} (f : A -> outcome (list B))
  (l : list A) (per : list (list B)) :
  Forall2 (fun a r => f a = Return r) l per ->
  flatMap f l = Return (List.concat per).
Proof.
  induction 1 as [|a r l per Ha _ IH]; simpl.
  - reflexivity.
  - rewrite Ha, IH. reflexivity.
Qed.

(** Conversely a returned [flatMap] is the concatenation of returned calls. *)
Lemma flatMap_inv {A B : Type} (f : A -> outcome (list B))
  (l : list A) (all : list B) :
  flatMap f l = Return all ->
  exists per, Forall2 (fun a r => f a = Return r) l per /\ all = List.concat per.
Proof.
  revert all. induction l as [|a l IH]; simpl; intros all H.
  - injection H as <-. exists []. split; constructor.
  - destruct (f a) as [r|e] eqn:Ha; simpl in H; [|discriminate].
    destruct (flatMap f l) as [rest|e] eqn:Hl; simpl in H; [|discriminate].
    injection H as <-.
    destruct (IH rest eq_refl) as (per & Hper & ->).
    exists (r :: per). split; [constructor; assumption | reflexivity].
Qed.

(** An exception of a step validation is an exception of [isValid]. *)
Lemma isValid_Throw (before : list Step.t) (s : Step.t) (after : list Step.t)
  (metadata : Metadata) (per : list (list Issue.t)) (e : exn) :
  Forall2 (fun a r => validateStep a = Return r) before per ->
  validateStep s = Throw e ->
  isValid (before ++ s :: after) metadata = Throw e.
Proof.
  intros Hper Hs. unfold isValid.
  assert (H : flatMap validateStep (before ++ s :: after) = Throw e).
  { induction Hper as [|a r l per Ha _ IH]; simpl.
    - now rewrite Hs.
    - now rewrite Ha, IH. }
  now rewrite H.
Qed.

Lemma has_level_spec (l : string) (i : Issue.t) :
  has_level l i = true <-> Issue.level i = l.
Proof. unfold has_level. apply String.eqb_eq. Qed.

(** C4: when every step validation returns, [isValid] returns, and it
    returns true exactly when the per-step issues, concatenated in step
    order and followed by the issues of [validateProcedure], hold no issue
    of level error; it returns false exactly when they hold one; issues of
    level warning or info alone leave it true. *)
Theorem isValid_iff_no_error
  (steps : list Step.t) (metadata : Metadata) (perStep : list (list Issue.t)) :
  Forall2 (fun s issues => validateStep s = Return issues) steps perStep ->
  (isValid steps metadata = Return true <->
   forall i, In i (List.concat perStep ++ validateProcedure steps metadata) ->
             Issue.level i <> LEVEL.ERROR) /\
  (isValid steps metadata = Return false <->
   exists i, In i (List.concat perStep ++ validateProcedure steps metadata) /\
             Issue.level i = LEVEL.ERROR) /\
  ((forall i, In i (List.concat perStep ++ validateProcedure steps metadata) ->
              Issue.level i = LEVEL.WARNING \/ Issue.level i = LEVEL.INFO) ->
   isValid steps metadata = Return true).
Proof.
  intros Hper. unfold isValid.
  rewrite (flatMap_Return _ _ _ Hper). simpl.
  set (allIssues := List.concat perStep ++ validateProcedure steps metadata).
  assert (Hfalse : existsb (has_level LEVEL.ERROR) allIssues = false <->
                   forall i, In i allIssues -> Issue.level i <> LEVEL.ERROR).
  { rewrite existsb_false. split; intros H i Hi.
    - intros Hlvl. apply has_level_spec in Hlvl. rewrite (H i Hi) in Hlvl.
      discriminate.
    - destruct (has_level LEVEL.ERROR i) eqn:Hl; [|reflexivity].
      apply has_level_spec in Hl. now destruct (H i Hi). }
  assert (Htrue : existsb (has_level LEVEL.ERROR) allIssues = true <->
                  exists i, In i allIssues /\ Issue.level i = LEVEL.ERROR).
  { rewrite existsb_exists. split; intros (i & Hi & Hl); exists i;
      (split; [assumption | now apply has_level_spec]). }
  repeat split.
  - intros [= H]. apply Hfalse. now apply negb_true_iff.
  - intros H. apply Hfalse in H. now rewrite H.
  - intros [= H]. apply Htrue. now apply negb_false_iff.
  - intros H. apply Htrue in H. now rewrite H.
  - intros H. assert (Hf : existsb (has_level LEVEL.ERROR) allIssues = false).
    { apply Hfalse. intros i Hi Hl. destruct (H i Hi) as [Hw|Hw];
        rewrite Hl in Hw; discriminate. }
    now rewrite Hf.
Qed.

(** Without any assumption on the steps: [isValid] returns true exactly
    when every step validation returns and all the issues together hold no
    error. *)
Lemma isValid_true_iff (steps : list Step.t) (metadata : Metadata) :
  isValid steps metadata = Return true <->
  exists perStep,
    Forall2 (fun s issues => validateStep s = Return issues) steps perStep /\
    existsb (has_level LEVEL.ERROR)
            (List.concat perStep ++ validateProcedure steps metadata) = false.
Proof.
  unfold isValid. split.
  - destruct (flatMap validateStep steps) as [all|e] eqn:Hall; simpl;
      [|discriminate].
    apply flatMap_inv in Hall as (perStep & Hper & ->).
    intros [= H]. exists perStep. split; [assumption|].
    now apply negb_true_iff.
  - intros (perStep & Hper & H).
    rewrite (flatMap_Return _ _ _ Hper). simpl. now rewrite H.
Qed.

(** The default purge, ocp and cv steps form a valid procedure: the only
    issues are none at all. *)
Lemma isValid_iff_no_error_witness :
  Forall2 (fun s issues => validateStep s = Return issues)
          [default_step "purge"; default_step "ocp"; default_step "cv"]
          [[]; []; []] /\
  isValid [default_step "purge"; default_step "ocp"; default_step "cv"] []
    = Return true.
Proof.
  assert (H : Forall2 (fun s issues => validateStep s = Return issues)
                      [default_step "purge"; default_step "ocp"; default_step "cv"]
                      [[]; []; []])
    by (repeat constructor).
  split; [exact H|].
  apply (proj1 (isValid_iff_no_error _ [] _ H)).
  simpl. intros i Hi. destruct Hi.
Defined.

(** A step with an error makes the procedure invalid; a warning does not. *)
Lemma isValid_examples :
  isValid [cv_fast] [] = Return false /\
  isValid [default_step "ocp"; default_step "lsv"] [] = Return true /\
  fmap issue_codes (flatMap validateStep [default_step "ocp"; default_step "lsv"])
    = Return [] /\
  issue_codes (validateProcedure [default_step "ocp"; default_step "lsv"] []) = ["DR007"].
Proof. repeat split. Qed.

(** ** Strings *)

Lemma append_assoc (a b c : string) : ((a ++ b) ++ c = a ++ (b ++ c))%string.
Proof. induction a as [|x a IH]; simpl; [reflexivity | now rewrite IH]. Qed.

Lemma append_nil_r (a : string) : (a ++ "")%string = a.
Proof. induction a as [|x a IH]; simpl; [reflexivity | now rewrite IH]. Qed.

Lemma length_append (a b : string) :
  String.length (a ++ b) = (String.length a + String.length b)%nat.
Proof. induction a as [|x a IH]; simpl; [reflexivity | now rewrite IH]. Qed.

(** ** Escaping *)

Lemma replaceAll_app (c : ascii) (by_ a b : string) :
  replaceAll c by_ (a ++ b) = (replaceAll c by_ a ++ replaceAll c by_ b)%string.
Proof.
  induction a as [|x a IH]; simpl; [reflexivity|].
  rewrite IH. destruct (Ascii.eqb x c); [now rewrite append_assoc | reflexivity].
Qed.

Lemma escapeControls_app (a b : string) :
  escapeControls (a ++ b) = (escapeControls a ++ escapeControls b)%string.
Proof. unfold escapeControls. now rewrite !replaceAll_app. Qed.

(** The passes of [escapeYaml], composed on one character. *)
Lemma yaml_passes_pointwise (c : ascii) :
  escapeControls
    (replaceAll double_quote (escaped double_quote)
       (replaceAll backslash (escaped backslash) (single c)))
  = yaml_escape c.
Proof.
  destruct c as [[] [] [] [] [] [] [] []]; reflexivity.
Qed.

Lemma python_passes_pointwise (c : ascii) :
  escapeControls
    (replaceAll single_quote (escaped single_quote)
       (replaceAll double_quote (escaped double_quote)
          (replaceAll backslash (escaped backslash) (single c))))
  = python_escape c.
Proof.
  destruct c as [[] [] [] [] [] [] [] []]; reflexivity.
Qed.

Lemma concat_empty_cons (x : string) (l : list string) :
  String.concat "" (x :: l) = (x ++ String.concat "" l)%string.
Proof.
  destruct l as [|y l]; simpl; [now rewrite append_nil_r | reflexivity].
Qed.

Lemma flat_map_string_concat (f : ascii -> string) (s : string) :
  flat_map_string f s = String.concat "" (map f (list_ascii_of_string s)).
Proof.
  induction s as [|c s IH]; [reflexivity|].
  cbn [flat_map_string list_ascii_of_string map].
  now rewrite concat_empty_cons, IH.
Qed.

(** C9: [escapeYaml] and [escapePython] return the empty string for [null]
    and [undefined].  On a string, the result is the concatenation of what
    each character becomes, in order: a backslash (code 92) becomes two
    backslashes; a double quote (code 34) becomes a backslash and the double
    quote; for [escapePython] a single quote (code 39) becomes a backslash
    and the single quote; newline (code 10), tab (code 9) and carriage
    return (code 13) become a backslash followed by the letter n, t and r;
    any other character stays as it is.  So every escape is two characters
    long, and since the backslash pass comes first, no backslash written by
    a later pass is escaped again.  The case of the spec,
    [hello "world"], is the last part. *)
Theorem escape_functions_spec :
  escapeYaml null = "" /\ escapeYaml undefined = "" /\
  escapePython null = "" /\ escapePython undefined = "" /\
  (forall s,
      escapeYaml (str s)
      = String.concat ""
          (map (fun c =>
                  if Ascii.eqb c "092" then String "092" (String "092" "")
                  else if Ascii.eqb c "034" then String "092" (String "034" "")
                  else if Ascii.eqb c "010" then String "092" (String "n" "")
                  else if Ascii.eqb c "009" then String "092" (String "t" "")
                  else if Ascii.eqb c "013" then String "092" (String "r" "")
                  else String c "")
               (list_ascii_of_string s))) /\
  (forall s,
      escapePython (str s)
      = String.concat ""
          (map (fun c =>
                  if Ascii.eqb c "092" then String "092" (String "092" "")
                  else if Ascii.eqb c "034" then String "092" (String "034" "")
                  else if Ascii.eqb c "039" then String "092" (String "039" "")
                  else if Ascii.eqb c "010" then String "092" (String "n" "")
                  else if Ascii.eqb c "009" then String "092" (String "t" "")
                  else if Ascii.eqb c "013" then String "092" (String "r" "")
                  else String c "")
               (list_ascii_of_string s))) /\
  escapeYaml (str (String "h" (String "e" (String "l" (String "l" (String "o"
               (String " " (String "034" (String "w" (String "o" (String "r"
               (String "l" (String "d" (String "034" ""))))))))))))))
  = String "h" (String "e" (String "l" (String "l" (String "o" (String " "
      (String "092" (String "034" (String "w" (String "o" (String "r"
      (String "l" (String "d" (String "092" (String "034" "")))))))))))))).
Proof.
  repeat (split; [reflexivity|]).
  split; [|split; [|reflexivity]]; intros s.
  - transitivity (flat_map_string yaml_escape s).
    + induction s as [|c s IH]; [reflexivity|].
      change (String c s) with (single c ++ s)%string.
      simpl flat_map_string. rewrite <- IH, <- yaml_passes_pointwise.
      unfold escapeYaml. now rewrite !replaceAll_app, escapeControls_app.
    + rewrite flat_map_string_concat. f_equal.
  - transitivity (flat_map_string python_escape s).
    + induction s as [|c s IH]; [reflexivity|].
      change (String c s) with (single c ++ s)%string.
      simpl flat_map_string. rewrite <- IH, <- python_passes_pointwise.
      unfold escapePython. now rewrite !replaceAll_app, escapeControls_app.
    + rewrite flat_map_string_concat. f_equal. apply map_ext. intros c.
      destruct c as [[] [] [] [] [] [] [] []]; reflexivity.
Qed.

(** The cases of the test suite. *)
Lemma escape_examples :
  (escapeYaml (str ("hello " ++ single double_quote ++ "world" ++ single double_quote))
    = "hello \" ++ single double_quote ++ "world\" ++ single double_quote /\
  escapeYaml (str "a\b") = "a\\b" /\
  escapeYaml (str ("a" ++ single newline ++ "b" ++ single tab ++ "c")) = "a\nb\tc" /\
  escapeYaml (str ("a" ++ single carriage_return ++ "b")) = "a\rb" /\
  escapePython (str "it's") = "it\'s" /\
  escapePython (str ("a" ++ single newline ++ "b" ++ single carriage_return ++ "c"
                     ++ single tab ++ "d")) = "a\nb\rc\td")%string.
Proof. repeat split. Qed.

(** ** Conversion to SI units *)

Lemma substring_all (s : string) : substring 0 (String.length s) s = s.
Proof. induction s as [|c s IH]; simpl; [reflexivity | now rewrite IH]. Qed.

Lemma substring_append_l (a b : string) :
  substring 0 (String.length a) (a ++ b) = a.
Proof.
  induction a as [|c a IH]; simpl.
  - now destruct b.
  - now rewrite IH.
Qed.

Lemma substring_append_r (a b : string) :
  substring (String.length a) (String.length b) (a ++ b) = b.
Proof.
  induction a as [|c a IH]; simpl; [apply substring_all | exact IH].
Qed.

(** A string is its first [n] characters followed by the others. *)
Lemma substring_split (s : string) (n : nat) :
  (n <= String.length s)%nat ->
  s = (substring 0 n s ++ substring n (String.length s - n) s)%string.
Proof.
  revert n. induction s as [|c s IH]; intros n Hn; simpl in *.
  - now destruct n.
  - destruct n as [|n]; simpl.
    + now rewrite substring_all.
    + rewrite <- IH by lia. reflexivity.
Qed.

(** [strip_suffix] finds the stem exactly when the key is the stem followed
    by the suffix. *)
Lemma strip_suffix_Some (suffix key stem : string) :
  strip_suffix suffix key = Some stem <-> key = (stem ++ suffix)%string.
Proof.
  unfold strip_suffix. split.
  - destruct (Nat.leb_spec (String.length suffix) (String.length key)) as [Hle|Hgt];
      simpl; [|discriminate].
    destruct (String.eqb_spec
                (substring (String.length key - String.length suffix)
                           (String.length suffix) key) suffix) as [Heq|_];
      [|discriminate].
    intros [= <-].
    rewrite (substring_split key (String.length key - String.length suffix)) at 1
      by lia.
    replace (String.length key - (String.length key - String.length suffix))%nat
      with (String.length suffix) by lia.
    now rewrite Heq.
  - intros ->. rewrite length_append.
    replace (String.length stem + String.length suffix - String.length suffix)%nat
      with (String.length stem) by lia.
    destruct (Nat.leb_spec (String.length suffix)
                (String.length stem + String.length suffix)) as [_|Hgt]; [|lia].
    now rewrite substring_append_r, String.eqb_refl, substring_append_l.
Qed.

Lemma last_ascii_append (a b : string) :
  b <> ""%string -> last_ascii (a ++ b) = last_ascii b.
Proof.
  intros Hb. induction a as [|c a IH]; simpl; [reflexivity|].
  rewrite IH. destruct (a ++ b)%string eqn:Hab; [|reflexivity].
  destruct a; simpl in Hab; [contradiction | discriminate].
Qed.

(** A key does not end with a suffix whose last character differs from its
    own. *)
Lemma strip_suffix_last (suffix key : string) :
  suffix <> ""%string -> last_ascii key <> last_ascii suffix ->
  strip_suffix suffix key = None.
Proof.
  intros Hne Hlast. destruct (strip_suffix suffix key) as [stem|] eqn:H;
    [|reflexivity].
  apply strip_suffix_Some in H. subst key.
  now rewrite last_ascii_append in Hlast.
Qed.

Lemma toSI_mV_s (stem : string) (v : value) :
  toSI ((stem ++ "_mV_s")%string, v)
  = ((stem ++ "_V_s")%string, scale (fun x => x / 1000)%float v).
Proof.
  unfold toSI. now rewrite (proj2 (strip_suffix_Some "_mV_s" _ stem) eq_refl).
Qed.

Lemma toSI_mV (stem : string) (v : value) :
  toSI ((stem ++ "_mV")%string, v)
  = ((stem ++ "_V")%string, scale (fun x => x / 1000)%float v).
Proof.
  unfold toSI.
  rewrite (strip_suffix_last "_mV_s")
    by (rewrite ?last_ascii_append; simpl; discriminate).
  now rewrite (proj2 (strip_suffix_Some "_mV" _ stem) eq_refl).
Qed.

Lemma toSI_min (stem : string) (v : value) :
  toSI ((stem ++ "_min")%string, v)
  = ((stem ++ "_s")%string, scale (fun x => x * 60)%float v).
Proof.
  unfold toSI.
  rewrite (strip_suffix_last "_mV_s")
    by (rewrite ?last_ascii_append; simpl; discriminate).
  rewrite (strip_suffix_last "_mV")
    by (rewrite ?last_ascii_append; simpl; discriminate).
  now rewrite (proj2 (strip_suffix_Some "_min" _ stem) eq_refl).
Qed.

Lemma toSI_mA (stem : string) (v : value) :
  toSI ((stem ++ "_mA")%string, v)
  = ((stem ++ "_A")%string, scale (fun x => x / 1000)%float v).
Proof.
  unfold toSI.
  rewrite (strip_suffix_last "_mV_s")
    by (rewrite ?last_ascii_append; simpl; discriminate).
  rewrite (strip_suffix_last "_mV")
    by (rewrite ?last_ascii_append; simpl; discriminate).
  rewrite (strip_suffix_last "_min")
    by (rewrite ?last_ascii_append; simpl; discriminate).
  now rewrite (proj2 (strip_suffix_Some "_mA" _ stem) eq_refl).
Qed.

(** The key of a converted entry does not depend on the value. *)
Lemma toSI_fst (key : string) (v : value) : fst (toSI (key, v)) = si_key key.
Proof.
  unfold si_key, toSI.
  repeat match goal with
         | |- context [strip_suffix ?s ?k] => destruct (strip_suffix s k)
         end; reflexivity.
Qed.

(** *** Objects filled by assignment *)

Lemma own_set {A : Type} (o : obj A) (k k' : string) (a : A) :
  own (JS.set o k a) k' = if String.eqb k k' then Some a else own o k'.
Proof.
  induction o as [|[k0 a0] o IH]; simpl.
  - reflexivity.
  - destruct (String.eqb_spec k0 k) as [->|Hne]; simpl.
    + destruct (String.eqb_spec k k'); reflexivity.
    + rewrite IH. destruct (String.eqb_spec k0 k') as [->|_]; [|reflexivity].
      destruct (String.eqb_spec k k'); congruence.
Qed.

Lemma own_app {A : Type} (o1 o2 : obj A) (k : string) :
  own (o1 ++ o2) k = match own o1 k with Some a => Some a | None => own o2 k end.
Proof.
  induction o1 as [|[k0 a0] o1 IH]; simpl; [reflexivity|].
  now destruct (String.eqb k0 k).
Qed.

(** After a run of assignments the last one to a key wins. *)
Lemma own_fold_set {A : Type} (entries : list (string * A)) (acc : obj A)
  (k : string) :
  own (fold_left (fun o e => JS.set o (fst e) (snd e)) entries acc) k
  = match own (rev entries) k with
    | Some a => Some a
    | None => own acc k
    end.
Proof.
  revert acc. induction entries as [|[k0 a0] entries IH]; intros acc; simpl.
  - reflexivity.
  - rewrite IH, own_app, own_set. simpl.
    destruct (own (rev entries) k); [reflexivity|].
    now destruct (String.eqb k0 k).
Qed.

Lemma keys_rev {A : Type} (o : obj A) : keys (rev o) = rev (keys o).
Proof. unfold keys. apply map_rev. Qed.

(** With distinct keys the order of the assignments does not matter. *)
Lemma own_rev {A : Type} (o : obj A) (k : string) :
  NoDup (keys o) -> own (rev o) k = own o k.
Proof.
  intros Hnd.
  assert (Hnd' : NoDup (keys (rev o))) by (rewrite keys_rev; now apply NoDup_rev).
  destruct (own o k) as [a|] eqn:Ho.
  - apply own_NoDup; [assumption|]. apply in_rev. rewrite rev_involutive.
    now apply own_In.
  - apply own_None. apply own_None in Ho. rewrite keys_rev.
    intros Hin. apply Ho. now apply in_rev.
Qed.

Lemma NoDup_map_injective {A B : Type} (f : A -> B) (l : list A) (a b : A) :
  NoDup (map f l) -> In a l -> In b l -> f a = f b -> a = b.
Proof.
  induction l as [|x l IH]; simpl; [tauto|].
  intros Hnd Ha Hb Hf. inversion Hnd as [|? ? Hx Hnd']; subst.
  destruct Ha as [<-|Ha], Hb as [<-|Hb]; try reflexivity.
  - exfalso. apply Hx. rewrite Hf. now apply in_map.
  - exfalso. apply Hx. rewrite <- Hf. now apply in_map.
  - now apply IH.
Qed.

Lemma NoDup_map_incl {A B : Type} (f : A -> B) (l ks : list A) :
  NoDup (map f l) -> NoDup ks -> incl ks l -> NoDup (map f ks).
Proof.
  intros Hl. induction ks as [|k ks IH]; intros Hks Hincl; simpl.
  - constructor.
  - inversion Hks as [|? ? Hk Hks']; subst. constructor.
    + intros Hin. apply in_map_iff in Hin as (k' & Hf & Hk').
      assert (k' = k).
      { apply (NoDup_map_injective f l); auto.
        - apply Hincl. now right.
        - apply Hincl. now left. }
      subst. contradiction.
    + apply IH; [assumption|]. intros x Hx. apply Hincl. now right.
Qed.

Lemma siParams_fold (params acc : obj value) :
  fold_left (fun o entry => JS.set o (fst (toSI entry)) (snd (toSI entry))) params acc
  = fold_left (fun o e => JS.set o (fst e) (snd e)) (map toSI params) acc.
Proof.
  revert acc. induction params as [|e params IH]; intros acc; simpl;
    [reflexivity | apply IH].
Qed.

Lemma siParams_spec (params : obj value) (k : string) :
  NoDup (map si_key (keys params)) ->
  own (siParams params) k = own (map toSI params) k.
Proof.
  intros Hnd. unfold siParams.
  rewrite siParams_fold, own_fold_set. simpl.
  rewrite own_rev.
  - now destruct (own (map toSI params) k).
  - unfold keys in *. rewrite map_map. rewrite map_map in Hnd.
    erewrite map_ext; [exact Hnd|].
    intros [key v]. apply toSI_fst.
Qed.

(** *** The catalog's keys convert without collision *)

Lemma catalog_si_keys_NoDup :
  Forall (fun e => NoDup (map si_key (keys (Technique.params (snd e)))))
         TECHNIQUES.
Proof.
  repeat apply Forall_cons; try apply Forall_nil;
    vm_compute; repeat constructor; simpl; intuition discriminate.
Qed.

Lemma catalog_si_keys_safe :
  Forall (fun e => si_keys_safe (keys (Technique.params (snd e))) = true)
         TECHNIQUES.
Proof. repeat constructor. Qed.

Lemma si_keys_safe_spec (ks : list string) (k : string) :
  si_keys_safe ks = true -> In k ks -> si_key k <> k ->
  ~ In k (map si_key ks).
Proof.
  unfold si_keys_safe. rewrite forallb_forall. intros H Hk Hne Hin.
  specialize (H k Hk). apply orb_true_iff in H as [H|H].
  - apply String.eqb_eq in H. contradiction.
  - apply negb_true_iff in H.
    assert (Ht : existsb (String.eqb k) (map si_key ks) = true).
    { apply existsb_exists. exists k. split; [assumption | apply String.eqb_refl]. }
    congruence.
Qed.

(** The converted entry of a parameter is present, and its original key is
    absent when the conversion renames it. *)
Lemma siParams_entry (step : Step.t) (tech : Technique.t) (key : string) (v : value) :
  conforms step tech ->
  own (Step.params step) key = Some v ->
  own (siParams (Step.params step)) (si_key key) = Some (snd (toSI (key, v))) /\
  (si_key key <> key -> own (siParams (Step.params step)) key = None).
Proof.
  intros (Htech & Hnd & Hincl) Hown.
  apply own_In in Htech.
  pose proof catalog_si_keys_NoDup as H1.
  pose proof catalog_si_keys_safe as H2.
  rewrite Forall_forall in H1, H2.
  specialize (H1 _ Htech). specialize (H2 _ Htech). simpl in H1, H2.
  assert (Hnd' : NoDup (map si_key (keys (Step.params step))))
    by (apply (NoDup_map_incl si_key _ _ H1 Hnd Hincl)).
  assert (Hkeys : keys (map toSI (Step.params step))
                  = map si_key (keys (Step.params step))).
  { unfold keys. rewrite !map_map. apply map_ext. intros [k w]. apply toSI_fst. }
  apply own_In in Hown as Hin.
  split.
  - rewrite siParams_spec by assumption.
    apply own_NoDup; [now rewrite Hkeys|].
    rewrite <- (toSI_fst key v), <- surjective_pairing.
    now apply in_map.
  - intros Hne. rewrite siParams_spec by assumption.
    apply own_None. rewrite Hkeys. intros Hk.
    assert (Hk1 : In key (keys (Step.params step)))
      by (apply (in_map fst _ _ Hin)).
    apply (si_keys_safe_spec _ key H2 (Hincl _ Hk1) Hne).
    apply in_map_iff in Hk as (k' & Hf & Hk').
    apply in_map_iff. exists k'. split; [assumption | now apply Hincl].
Qed.

(** C8: for a step of the data model, a numeric parameter under a key
    ending in [_mV_s] is found in the IR parameters divided by 1000 under
    the key ending in [_V_s], one ending in [_mV] divided by 1000 under
    [_V], one ending in [_min] multiplied by 60 under [_s], and one ending
    in [_mA] divided by 1000 under [_A]; in each case the original key is
    absent from the IR parameters. *)
Theorem siParams_converts
  (step : Step.t) (tech : Technique.t) (stem : string) (x : float) :
  conforms step tech ->
  (own (Step.params step) (stem ++ "_mV_s") = Some (VNum x) ->
   own (siParams (Step.params step)) (stem ++ "_V_s") = Some (VNum (x / 1000)%float) /\
   own (siParams (Step.params step)) (stem ++ "_mV_s") = None) /\
  (own (Step.params step) (stem ++ "_mV") = Some (VNum x) ->
   own (siParams (Step.params step)) (stem ++ "_V") = Some (VNum (x / 1000)%float) /\
   own (siParams (Step.params step)) (stem ++ "_mV") = None) /\
  (own (Step.params step) (stem ++ "_min") = Some (VNum x) ->
   own (siParams (Step.params step)) (stem ++ "_s") = Some (VNum (x * 60)%float) /\
   own (siParams (Step.params step)) (stem ++ "_min") = None) /\
  (own (Step.params step) (stem ++ "_mA") = Some (VNum x) ->
   own (siParams (Step.params step)) (stem ++ "_A") = Some (VNum (x / 1000)%float) /\
   own (siParams (Step.params step)) (stem ++ "_mA") = None).
Proof.
  intros Hc.
  assert (Hlen : forall a b : string,
             String.length a <> String.length b ->
             (stem ++ a)%string <> (stem ++ b)%string).
  { intros a b Hab Heq. apply (f_equal String.length) in Heq.
    rewrite !length_append in Heq. lia. }
  split; [|split; [|split]]; intros Hown;
    destruct (siParams_entry step tech _ _ Hc Hown) as [Hnew Hold];
    unfold si_key in Hnew, Hold; split.
  - rewrite toSI_mV_s in Hnew. rewrite toSI_mV_s in Hnew. exact Hnew.
  - rewrite toSI_mV_s in Hold. apply Hold. apply Hlen. simpl. lia.
  - rewrite toSI_mV in Hnew. rewrite toSI_mV in Hnew. exact Hnew.
  - rewrite toSI_mV in Hold. apply Hold. apply Hlen. simpl. lia.
  - rewrite toSI_min in Hnew. rewrite toSI_min in Hnew. exact Hnew.
  - rewrite toSI_min in Hold. apply Hold. apply Hlen. simpl. lia.
  - rewrite toSI_mA in Hnew. rewrite toSI_mA in Hnew. exact Hnew.
  - rewrite toSI_mA in Hold. apply Hold. apply Hlen. simpl. lia.
Qed.

(** A cv step with a scan rate of 100 mV/s has [scan_rate_V_s] at 0.1 and no
    [scan_rate_mV_s] in its IR parameters. *)
Lemma siParams_converts_witness :
  conforms cv_100 cv /\
  own (siParams (Step.params cv_100)) "scan_rate_V_s" = Some (VNum 0.1%float) /\
  own (siParams (Step.params cv_100)) "scan_rate_mV_s" = None.
Proof.
  assert (H : conforms cv_100 cv).
  { split; [reflexivity|]. split.
    - repeat constructor; simpl; intuition discriminate.
    - apply incl_refl. }
  split; [exact H|].
  apply (proj1 (siParams_converts cv_100 cv "scan_rate" 100%float H)).
  reflexivity.
Defined.

(** The cases of the test suite: amplitude, purge duration and current. *)
Lemma siParams_examples :
  own (siParams (Step.params (default_step "eis"))) "amplitude_V"
    = Some (VNum 0.01%float) /\
  own (siParams (Step.params (default_step "purge"))) "duration_s"
    = Some (VNum 1200%float) /\
  own (siParams (Step.params (default_step "purge"))) "duration_min" = None /\
  fmap (fun s => own (siParams (Step.params s)) "current_A")
       (default_with "cp" "current_mA" (VNum 50%float))
    = Return (Some (VNum 0.05%float)).
Proof. repeat split. Qed.

(** * Further properties of the validator *)

Import Derived.

(** Splits [H : In i l] for a list built from the rule combinators into one
    case per issue. *)
Ltac issue_cases H :=
  repeat match type of H with
         | In _ (_ ++ _) => apply in_app_or in H; destruct H as [H|H]
         | In _ (when _ _) => unfold when in H
         | In _ (if ?c then _ else _) => destruct c
         | In _ [] => destruct H
         | In _ (_ :: _) => destruct H as [H|H]; [subst|]
         end.

(** Every issue of the technique blocks is an error with a PV code or a
    warning with a DR code, names a parameter, carries no step index and is
    not the generic PV000. *)
Lemma technique_rules_levels (step : Step.t) (i : Issue.t) :
  In i (technique_rules step) ->
  well_levelled i /\ Issue.param i <> None /\ Issue.stepIndex i = None /\
  Issue.code i <> "PV000".
Proof.
  intros H.
  unfold technique_rules, cv_rules, eis_rules, ocp_rules, ca_cp_rules, lsv_rules,
    purge_rules in H.
  issue_cases H; unfold well_levelled; simpl;
    (repeat split; [auto | discriminate | discriminate]).
Qed.

(** The shape of a returned validation: the unknown-technique error alone,
    or the technique issues followed by the sweep of a catalog technique, or
    nothing for an inherited name. *)
Lemma validateStep_Return_cases (step : Step.t) (issues : list Issue.t) :
  validateStep step = Return issues ->
  (get TECHNIQUES (Step.technique step) = Undefined /\
   issues = [unknown_technique (Step.technique step)]) \/
  (get TECHNIQUES (Step.technique step) = Inherited /\
   Step.params step = [] /\ issues = []) \/
  (exists tech,
      own TECHNIQUES (Step.technique step) = Some tech /\
      issues = technique_rules step
               ++ flat_map (check_bounds tech) (Step.params step)).
Proof.
  unfold validateStep.
  destruct (get TECHNIQUES (Step.technique step)) as [tech| |] eqn:Hget.
  - intros [= <-]. right. right. exists tech. split; [|reflexivity].
    now apply get_Own.
  - destruct (Step.params step); [|discriminate].
    intros [= <-]. right. left. repeat split.
    apply technique_rules_inherited.
    unfold get in Hget. destruct (own TECHNIQUES (Step.technique step));
      [discriminate|]. now destruct (inherited (Step.technique step)).
  - intros [= <-]. left. now split.
Qed.

(** Whatever [validateStep] returns, each issue is an error with a PV code
    or a warning with a DR code; no issue has level info or a step index. *)
Theorem validateStep_issue_levels
  (step : Step.t) (issues : list Issue.t) (i : Issue.t) :
  validateStep step = Return issues -> In i issues ->
  well_levelled i /\ Issue.level i <> LEVEL.INFO /\ Issue.stepIndex i = None.
Proof.
  intros Hret Hin.
  assert (H : well_levelled i /\ Issue.stepIndex i = None).
  { destruct (validateStep_Return_cases _ _ Hret)
      as [[_ ->]|[(_ & _ & ->)|(tech & _ & ->)]].
    - destruct Hin as [<-|[]]. split; [left; split|]; reflexivity.
    - destruct Hin.
    - apply in_app_or in Hin as [Hin|Hin].
      + apply technique_rules_levels in Hin. tauto.
      + apply in_flat_map in Hin as (entry & _ & Hin).
        destruct entry as [key v]. unfold check_bounds in Hin.
        destruct (get (Technique.params tech) key) as [paramDef| |];
          try destruct Hin.
        destruct (ParamSpec.min paramDef), (ParamSpec.max paramDef);
          issue_cases Hin; (split; [left; split|]; reflexivity). }
  destruct H as [Hl Hs]. repeat split; try assumption.
  destruct Hl as [[Hl _]|[Hl _]]; rewrite Hl; discriminate.
Qed.

Lemma validateStep_issue_levels_witness :
  validateStep cv_fast
    = Return [issue LEVEL.ERROR "PV001" "Scan rate exceeds instrument limit (10 V/s)"
                    (Some "scan_rate_mV_s");
              above_maximum "scan_rate_mV_s"
                (ParamSpec.mk "Scan rate" "number" (VNum 50%float) (Some "mV/s")
                              (Some 0.1%float) (Some 10000%float) None)
                10000%float] /\
  well_levelled
    (issue LEVEL.ERROR "PV001" "Scan rate exceeds instrument limit (10 V/s)"
           (Some "scan_rate_mV_s")).
Proof.
  assert (H : validateStep cv_fast
              = Return [issue LEVEL.ERROR "PV001"
                              "Scan rate exceeds instrument limit (10 V/s)"
                              (Some "scan_rate_mV_s");
                        above_maximum "scan_rate_mV_s"
                          (ParamSpec.mk "Scan rate" "number" (VNum 50%float)
                                        (Some "mV/s") (Some 0.1%float)
                                        (Some 10000%float) None)
                          10000%float])
    by reflexivity.
  split; [exact H|].
  apply (validateStep_issue_levels cv_fast _ _ H). now left.
Defined.

(** In the result for a step of a catalog technique, a PV000 issue always
    comes from the sweep: it names a parameter of the step whose schema
    entry declares a min above the value or a max below it. *)
Theorem validateStep_PV000_sound
  (step : Step.t) (tech : Technique.t) (issues : list Issue.t) (i : Issue.t) :
  own TECHNIQUES (Step.technique step) = Some tech ->
  validateStep step = Return issues ->
  In i issues -> Issue.code i = "PV000" ->
  exists key v paramDef,
    Issue.param i = Some key /\
    In (key, v) (Step.params step) /\
    own (Technique.params tech) key = Some paramDef /\
    ((exists m, ParamSpec.min paramDef = Some m /\ lt v m = true) \/
     (exists m, ParamSpec.max paramDef = Some m /\ gt v m = true)).
Proof.
  intros Htech Hret Hin Hcode.
  unfold validateStep in Hret. rewrite (proj2 (get_Own _ _ _) Htech) in Hret.
  injection Hret as <-.
  apply in_app_or in Hin as [Hin|Hin].
  - apply technique_rules_levels in Hin. tauto.
  - apply in_flat_map in Hin as ([key v] & Hentry & Hin).
    assert (Hne : check_bounds tech (key, v) <> [])
      by (intros Hnil; rewrite Hnil in Hin; destruct Hin).
    destruct (check_bounds_violation tech key v Hne) as (paramDef & Hdef & Hviol).
    apply check_bounds_fields in Hin. simpl in Hin.
    exists key, v, paramDef. tauto.
Qed.

Lemma validateStep_PV000_sound_witness :
  own TECHNIQUES (Step.technique cv_fast) = Some cv /\
  exists key v paramDef,
    Some "scan_rate_mV_s" = Some key /\
    In (key, v) (Step.params cv_fast) /\
    own (Technique.params cv) key = Some paramDef /\
    ((exists m, ParamSpec.min paramDef = Some m /\ lt v m = true) \/
     (exists m, ParamSpec.max paramDef = Some m /\ gt v m = true)).
Proof.
  split; [reflexivity|].
  apply (validateStep_PV000_sound cv_fast cv
           (technique_rules cv_fast
            ++ flat_map (check_bounds cv) (Step.params cv_fast))
           (above_maximum "scan_rate_mV_s"
              (ParamSpec.mk "Scan rate" "number" (VNum 50%float) (Some "mV/s")
                            (Some 0.1%float) (Some 10000%float) None)
              10000%float)).
  - reflexivity.
  - reflexivity.
  - vm_compute. tauto.
  - reflexivity.
Defined.

(** ** Values that are not numbers *)












(** ** Default steps are valid *)

(** Whatever the clock and the random draw, the default step of a catalog
    technique is created and validates without any issue. *)
Theorem createDefaultStep_validates
  (now : Z) (rand id : string) (tech : Technique.t) :
  own TECHNIQUES id = Some tech ->
  exists step,
    createDefaultStep now rand id = Return step /\ validateStep step = Return [].
Proof.
  intros H. apply own_In in H. simpl in H.
  repeat (destruct H as [H|H];
          [injection H as <- <-; eexists; split; reflexivity|]).
  contradiction.
Qed.

Lemma createDefaultStep_validates_witness :
  own TECHNIQUES "swv" = Some swv /\
  exists step,
    createDefaultStep 1700000000000 "0.k3j9x0q2w8r" "swv" = Return step /\
    validateStep step = Return [].
Proof.
  split; [reflexivity|].
  apply (createDefaultStep_validates 1700000000000 "0.k3j9x0q2w8r" "swv" swv).
  reflexivity.
Defined.

(** ** Validity is decided step by step *)

Lemma validateStep_Throw (step : Step.t) (e : exn) :
  validateStep step = Throw e -> e = TypeError.
Proof.
  unfold validateStep.
  destruct (get TECHNIQUES (Step.technique step)); try discriminate.
  destruct (Step.params step); [discriminate | now intros [= <-]].
Qed.

Lemma error_free_app (a b : list Issue.t) :
  error_free (a ++ b) = error_free a && error_free b.
Proof. unfold error_free. now rewrite existsb_app, negb_orb. Qed.

(** The procedure-level issues are warnings: they are free of errors. *)
Lemma validateProcedure_error_free (steps : list Step.t) (metadata : Metadata) :
  error_free (validateProcedure steps metadata) = true.
Proof.
  unfold error_free. apply negb_true_iff, existsb_false.
  intros i Hi. apply validateProcedure_warnings in Hi.
  unfold has_level. now rewrite Hi.
Qed.

Lemma flatMap_verdicts (steps : list Step.t) :
  fmap error_free (flatMap validateStep steps) = verdicts steps.
Proof.
  induction steps as [|s steps IH]; simpl; [reflexivity|].
  rewrite <- IH. destruct (validateStep s) as [issues|e]; simpl; [|reflexivity].
  destruct (flatMap validateStep steps) as [rest|e]; simpl; [|reflexivity].
  now rewrite error_free_app.
Qed.

(** [isValid] is the step-by-step verdict: [validateProcedure] has no part in
    it. *)
Lemma isValid_verdicts (steps : list Step.t) (metadata : Metadata) :
  isValid steps metadata = verdicts steps.
Proof.
  rewrite <- flatMap_verdicts. unfold isValid.
  destruct (flatMap validateStep steps) as [issues|e]; simpl; [|reflexivity].
  fold (error_free (issues ++ validateProcedure steps metadata)).
  now rewrite error_free_app, validateProcedure_error_free, andb_true_r.
Qed.

Lemma verdicts_true (steps : list Step.t) :
  verdicts steps = Return true <-> Forall step_valid steps.
Proof.
  induction steps as [|s steps IH]; simpl.
  - split; [constructor | reflexivity].
  - split.
    + destruct (validateStep s) as [issues|e] eqn:Hs; [|discriminate].
      destruct (verdicts steps) as [b|e]; [|discriminate].
      intros [= H]. apply andb_true_iff in H as [H1 ->].
      constructor; [now exists issues | now apply IH].
    + intros H. inversion H as [|? ? (issues & Hs & Hfree) Hrest]; subst.
      apply IH in Hrest. now rewrite Hs, Hrest, Hfree.
Qed.

(** [isValid] returns true exactly when each step, validated on its own,
    returns without an error-level issue; the procedure-level rules and the
    metadata never change the answer.  Hence a concatenation is valid exactly
    when both parts are. *)
Theorem isValid_per_step (steps : list Step.t) (metadata : Metadata) :
  (isValid steps metadata = Return true <-> Forall step_valid steps) /\
  (forall more,
      isValid (steps ++ more) metadata = Return true <->
      isValid steps metadata = Return true /\ isValid more metadata = Return true).
Proof.
  split.
  - rewrite isValid_verdicts. apply verdicts_true.
  - intros more. rewrite !isValid_verdicts, !verdicts_true. apply Forall_app.
Qed.

Lemma verdicts_Throw (steps : list Step.t) (e : exn) :
  verdicts steps = Throw e -> e = TypeError.
Proof.
  induction steps as [|s steps IH]; simpl; [discriminate|].
  destruct (validateStep s) as [issues|e'] eqn:Hs.
  - destruct (verdicts steps) as [b|e']; [discriminate|].
    intros [= <-]. now apply IH.
  - intros [= <-]. now apply validateStep_Throw in Hs.
Qed.

Lemma verdicts_Permutation (steps steps' : list Step.t) :
  Permutation steps steps' -> verdicts steps = verdicts steps'.
Proof.
  induction 1 as [|s l l' _ IH|a b l|l1 l2 l3 _ IH1 _ IH2]; simpl.
  - reflexivity.
  - now rewrite IH.
  - destruct (validateStep a) as [ia|ea] eqn:Ha,
             (validateStep b) as [ib|eb] eqn:Hb;
      try (apply validateStep_Throw in Ha; subst ea);
      try (apply validateStep_Throw in Hb; subst eb);
      destruct (verdicts l) as [c|e] eqn:Hl;
      try (apply verdicts_Throw in Hl; subst e);
      try reflexivity.
    f_equal. now rewrite !andb_assoc, (andb_comm (error_free ib)).
  - now rewrite IH1.
Qed.

(** Reordering the steps of a procedure, under any metadata, does not change
    what [isValid] produces: the same boolean, or the same exception. *)
Theorem isValid_Permutation
  (steps steps' : list Step.t) (metadata metadata' : Metadata) :
  Permutation steps steps' ->
  isValid steps metadata = isValid steps' metadata'.
Proof.
  intros H. rewrite !isValid_verdicts. now apply verdicts_Permutation.
Qed.

Lemma isValid_Permutation_witness :
  Permutation [cv_fast; default_step "purge"; default_step "ocp"]
              [default_step "ocp"; cv_fast; default_step "purge"] /\
  isValid [cv_fast; default_step "purge"; default_step "ocp"] []
  = isValid [default_step "ocp"; cv_fast; default_step "purge"]
            [("name", VStr "Test")].
Proof.
  assert (H : Permutation [cv_fast; default_step "purge"; default_step "ocp"]
                          [default_step "ocp"; cv_fast; default_step "purge"]).
  { apply Permutation_sym.
    apply (Permutation_cons_app [cv_fast; default_step "purge"] []).
    apply Permutation_refl. }
  split; [exact H|].
  apply (isValid_Permutation _ _ [] [("name", VStr "Test")] H).
Defined.

(** ** Summaries *)

Lemma has_level_exclusive (i : Issue.t) :
  (has_level LEVEL.ERROR i = true ->
   has_level LEVEL.WARNING i = false /\ has_level LEVEL.INFO i = false) /\
  (has_level LEVEL.WARNING i = true ->
   has_level LEVEL.ERROR i = false /\ has_level LEVEL.INFO i = false) /\
  (has_level LEVEL.INFO i = true ->
   has_level LEVEL.ERROR i = false /\ has_level LEVEL.WARNING i = false).
Proof.
  unfold has_level.
  split; [|split]; intros Hl; apply String.eqb_eq in Hl; rewrite Hl;
    split; reflexivity.
Qed.

(** The three groups together are the issues of a known level. *)
Lemma summarizeIssues_partition_aux (issues : list Issue.t) :
  Permutation (errors_of issues ++ warnings_of issues ++ infos_of issues)
              (filter known_level issues).
Proof.
  unfold errors_of, warnings_of, infos_of, summarizeIssues. simpl.
  induction issues as [|i issues IH]; simpl; [constructor|].
  unfold known_level at 1.
  pose proof (has_level_exclusive i) as (He & Hw & Hi).
  destruct (has_level LEVEL.ERROR i) eqn:E.
  - destruct (He eq_refl) as [-> ->]. simpl. now constructor.
  - destruct (has_level LEVEL.WARNING i) eqn:W.
    + destruct (Hw eq_refl) as [_ ->]. simpl.
      apply Permutation_sym, Permutation_cons_app, Permutation_sym, IH.
    + destruct (has_level LEVEL.INFO i) eqn:I; simpl; [|exact IH].
      apply Permutation_sym.
      rewrite app_assoc. apply Permutation_cons_app. rewrite <- app_assoc.
      apply Permutation_sym, IH.
Qed.

(** [summarizeIssues] sorts the issues by level and loses none that has one
    of the three levels: each group holds issues of its level only, and the
    three groups together are the issues of a known level, each as often as
    it occurs.  An issue of any other level is in no group. *)
Theorem summarizeIssues_partition (issues : list Issue.t) :
  Forall (fun i => Issue.level i = LEVEL.ERROR) (errors_of issues) /\
  Forall (fun i => Issue.level i = LEVEL.WARNING) (warnings_of issues) /\
  Forall (fun i => Issue.level i = LEVEL.INFO) (infos_of issues) /\
  Permutation (errors_of issues ++ warnings_of issues ++ infos_of issues)
              (filter known_level issues) /\
  (forall i, In i issues -> known_level i = false ->
             ~ In i (errors_of issues ++ warnings_of issues ++ infos_of issues)).
Proof.
  split; [|split; [|split; [|split]]];
    try (apply Forall_forall; intros i Hi;
         unfold errors_of, warnings_of, infos_of, summarizeIssues in Hi;
         simpl in Hi; apply filter_In in Hi as [_ Hi];
         now apply has_level_spec in Hi).
  - apply summarizeIssues_partition_aux.
  - intros i _ Hk Hin.
    apply (Permutation_in _ (summarizeIssues_partition_aux issues)) in Hin.
    apply filter_In in Hin as [_ Hin]. congruence.
Qed.

Lemma filter_all {A : Type} (p : A -> bool) (l : list A) :
  (forall x, In x l -> p x = true) -> filter p l = l.
Proof.
  induction l as [|a l IH]; simpl; intros H; [reflexivity|].
  rewrite (H a (or_introl eq_refl)), IH; [reflexivity|].
  intros x Hx. apply H. now right.
Qed.

Lemma filter_none {A : Type} (p : A -> bool) (l : list A) :
  (forall x, In x l -> p x = false) -> filter p l = [].
Proof.
  induction l as [|a l IH]; simpl; intros H; [reflexivity|].
  rewrite (H a (or_introl eq_refl)). apply IH.
  intros x Hx. apply H. now right.
Qed.

(** The summary of what [validateStep] returns has no info, and its errors
    and warnings together are all the issues: the two counts add up to the
    number of issues. *)
Theorem summarizeIssues_of_validateStep (step : Step.t) (issues : list Issue.t) :
  validateStep step = Return issues ->
  infos_of issues = [] /\
  Permutation (errors_of issues ++ warnings_of issues) issues /\
  (List.length (errors_of issues) + List.length (warnings_of issues)
   = List.length issues)%nat.
Proof.
  intros Hret.
  assert (Hlev : forall i, In i issues ->
                           has_level LEVEL.INFO i = false /\ known_level i = true).
  { intros i Hi.
    destruct (validateStep_Return_cases _ _ Hret)
      as [[_ ->]|[(_ & _ & ->)|(tech & _ & ->)]].
    - destruct Hi as [<-|[]]. split; reflexivity.
    - destruct Hi.
    - apply in_app_or in Hi as [Hi|Hi].
      + apply technique_rules_levels in Hi as ([[Hl _]|[Hl _]] & _);
          unfold known_level, has_level; rewrite Hl; split; reflexivity.
      + apply sweep_only_PV000 in Hi as [Hl _].
        unfold known_level, has_level; rewrite Hl; split; reflexivity. }
  assert (Hinfo : infos_of issues = []).
  { unfold infos_of, summarizeIssues. simpl. apply filter_none.
    intros i Hi. now apply Hlev. }
  assert (Hperm : Permutation (errors_of issues ++ warnings_of issues) issues).
  { pose proof (summarizeIssues_partition_aux issues) as H.
    rewrite Hinfo, app_nil_r in H.
    rewrite (filter_all known_level) in H; [exact H|].
    intros i Hi. now apply Hlev. }
  repeat split; try assumption.
  rewrite <- length_app. now apply Permutation_length.
Qed.

Lemma summarizeIssues_of_validateStep_witness :
  fmap issue_codes (validateStep (with_entry cv_fast 3 "cycles" (VNum 2%float)))
    = Return ["PV001"; "DR011"; "PV000"] /\
  (exists issues,
      validateStep (with_entry cv_fast 3 "cycles" (VNum 2%float)) = Return issues /\
      infos_of issues = [] /\
      Permutation (errors_of issues ++ warnings_of issues) issues /\
      (List.length (errors_of issues) + List.length (warnings_of issues)
       = List.length issues)%nat).
Proof.
  split; [reflexivity|].
  eexists. split; [reflexivity|].
  apply (summarizeIssues_of_validateStep
           (with_entry cv_fast 3 "cycles" (VNum 2%float))).
  reflexivity.
Defined.

(** ** The other procedure-level rules *)

Lemma validateProcedure_rules (steps : list Step.t) (metadata : Metadata) :
  validateProcedure steps metadata =
    when ((0 <? findIndex is_measurement steps)%Z
          && negb (existsb is_conditioning
                     (slice steps 0 (findIndex is_measurement steps))))
         (conditioning_issue (findIndex is_measurement steps)) ++
    when (existsb (fun s => String.eqb (Step.technique s) "lsv") steps
          && negb (existsb (fun s => String.eqb (Step.technique s) "purge") steps))
         (issue LEVEL.WARNING "DR007"
            "Consider adding gas purge before LSV for defined atmosphere (O₂ for ORR, N₂ for background)"
            None) ++
    when (existsb (fun s => is_true (field (Step.params s) "ir_compensation")) steps
          && negb (existsb (fun s => String.eqb (Step.technique s) "eis") steps))
         (issue LEVEL.WARNING "DR008"
            "iR compensation enabled but no EIS measurement to determine Ru" None).
Proof. reflexivity. Qed.

Lemma is_true_spec (v : value) : is_true v = true <-> v = VBool true.
Proof. destruct v as [| |[]| |]; simpl; split; congruence. Qed.

Lemma existsb_technique (steps : list Step.t) (t : string) :
  existsb (fun s => String.eqb (Step.technique s) t) steps = true <->
  exists s, In s steps /\ Step.technique s = t.
Proof.
  rewrite existsb_exists. split; intros (s & Hs & H); exists s;
    (split; [assumption | now apply String.eqb_eq]).
Qed.

Lemma not_existsb_technique (steps : list Step.t) (t : string) :
  negb (existsb (fun s => String.eqb (Step.technique s) t) steps) = true <->
  forall s, In s steps -> Step.technique s <> t.
Proof.
  rewrite negb_true_iff, existsb_false. split; intros H s Hs.
  - apply String.eqb_neq. now apply H.
  - apply String.eqb_neq. now apply H.
Qed.

(** Which of three guarded issues with distinct codes are present. *)
Lemma three_rules (c6 c7 c8 : bool) (i6 i7 i8 : Issue.t) :
  Issue.code i6 = "DR006" -> Issue.code i7 = "DR007" -> Issue.code i8 = "DR008" ->
  ((exists i, In i (when c6 i6 ++ when c7 i7 ++ when c8 i8)
              /\ Issue.code i = "DR007") <-> c7 = true) /\
  ((exists i, In i (when c6 i6 ++ when c7 i7 ++ when c8 i8)
              /\ Issue.code i = "DR008") <-> c8 = true).
Proof.
  intros H6 H7 H8.
  split; split.
  - intros (i & Hin & Hcode). destruct c7; [reflexivity|].
    destruct c6, c8; simpl in Hin;
      intuition (subst; congruence).
  - intros ->. exists i7. split; [|assumption].
    apply in_or_app. right. now left.
  - intros (i & Hin & Hcode). destruct c8; [reflexivity|].
    destruct c6, c7; simpl in Hin;
      intuition (subst; congruence).
  - intros ->. exists i8. split; [|assumption].
    apply in_or_app. right. apply in_or_app. right. now left.
Qed.

(** [validateProcedure] emits its DR007 exactly when some step is an lsv step
    and no step is a purge step, and DR008 exactly when some step has
    [ir_compensation] set to [true] and no step is an eis step; the order of
    the steps plays no part in either. *)
Theorem validateProcedure_DR007_DR008_iff
  (steps : list Step.t) (metadata : Metadata) :
  ((exists i, In i (validateProcedure steps metadata) /\ Issue.code i = "DR007")
   <->
   (exists s, In s steps /\ Step.technique s = "lsv") /\
   (forall s, In s steps -> Step.technique s <> "purge")) /\
  ((exists i, In i (validateProcedure steps metadata) /\ Issue.code i = "DR008")
   <->
   (exists s, In s steps /\ field (Step.params s) "ir_compensation" = VBool true) /\
   (forall s, In s steps -> Step.technique s <> "eis")).
Proof.
  rewrite validateProcedure_rules.
  rewrite <- (existsb_technique steps "lsv").
  rewrite <- (not_existsb_technique steps "purge").
  rewrite <- (not_existsb_technique steps "eis").
  assert (Hir : (exists s, In s steps
                           /\ field (Step.params s) "ir_compensation" = VBool true)
                <-> existsb (fun s => is_true (field (Step.params s) "ir_compensation"))
                            steps = true).
  { rewrite existsb_exists. split; intros (s & Hs & H); exists s;
      (split; [assumption | now apply is_true_spec]). }
  rewrite Hir. rewrite <- !andb_true_iff.
  apply three_rules; reflexivity.
Qed.

(** ** Parameters outside the schema *)

Lemma own_insert_other {A : Type} (o : obj A) (n : nat) (key k : string) (a : A) :
  k <> key -> own (firstn n o ++ (key, a) :: skipn n o) k = own o k.
Proof.
  intros Hne. rewrite <- (firstn_skipn n o) at 3. rewrite !own_app. simpl.
  destruct (String.eqb_spec key k) as [->|_]; [contradiction | reflexivity].
Qed.

Lemma field_insert_other (params : obj value) (n : nat) (key k : string) (v : value) :
  k <> key -> field (firstn n params ++ (key, v) :: skipn n params) k = field params k.
Proof. intros Hne. unfold field. now rewrite own_insert_other. Qed.

Lemma flat_map_insert_silent {A B : Type} (f : A -> list B) (l : list A)
  (n : nat) (x : A) :
  f x = [] -> flat_map f (firstn n l ++ x :: skipn n l) = flat_map f l.
Proof.
  intros Hx. rewrite <- (firstn_skipn n l) at 3.
  rewrite !flat_map_app. simpl. now rewrite Hx.
Qed.

(** Evaluates the comparisons of two literal strings in the goal. *)
Ltac eval_literal_eqb :=
  repeat match goal with
         | |- context [String.eqb ?a ?b] =>
             let r := eval vm_compute in (String.eqb a b) in
             change (String.eqb a b) with r
         end.

(** A parameter that the schema of the technique does not declare is never
    looked at: adding it to a step of a catalog technique, at any place and
    with any value, leaves the result of [validateStep] as it was. *)
Theorem validateStep_ignores_undeclared
  (step : Step.t) (tech : Technique.t) (n : nat) (key : string) (v : value) :
  own TECHNIQUES (Step.technique step) = Some tech ->
  own (Technique.params tech) key = None ->
  validateStep (with_entry step n key v) = validateStep step.
Proof.
  intros Htech Hkey.
  unfold validateStep. simpl Step.technique.
  rewrite (proj2 (get_Own _ _ _) Htech). f_equal. f_equal.
  - apply own_In in Htech. apply own_None in Hkey.
    unfold technique_rules. simpl Step.technique. simpl Step.params.
    unfold cv_rules, eis_rules, ocp_rules, ca_cp_rules, lsv_rules, purge_rules.
    cbv zeta.
    simpl in Htech.
    repeat (destruct Htech as [Htech|Htech];
            [ injection Htech as Hid Htech; rewrite <- Htech in Hkey;
              rewrite <- Hid; eval_literal_eqb; cbn [andb orb when app];
              rewrite ?field_insert_other
                by (intros Heq; apply Hkey; rewrite <- Heq; simpl; auto 20);
              reflexivity |]).
    contradiction.
  - simpl Step.params. apply flat_map_insert_silent.
    unfold check_bounds, get. rewrite Hkey. now destruct (inherited key).
Qed.

Lemma validateStep_ignores_undeclared_witness :
  own TECHNIQUES (Step.technique cv_fast) = Some cv /\
  own (Technique.params cv) "temperature_C" = None /\
  validateStep (with_entry cv_fast 2 "temperature_C" (VNum 1000%float))
  = validateStep cv_fast.
Proof.
  split; [reflexivity|]. split; [reflexivity|].
  apply (validateStep_ignores_undeclared cv_fast cv 2 "temperature_C"
           (VNum 1000%float)); reflexivity.
Defined.

(** * The editor's handlers *)

Import Editor.

(** ** Removing a step *)

(** Decides a conjunction of an integer [<=?] and an integer [<?]. *)
Ltac range_test :=
  match goal with
  | |- _ = true =>
      apply andb_true_iff; split; [apply Z.leb_le | apply Z.ltb_lt]; lia
  | |- _ = false =>
      apply andb_false_iff;
      first [ left; apply Z.leb_gt; lia | right; apply Z.ltb_ge; lia ]
  end.

Lemma filter_index_remove {A : Type} (l : list A) (index start : Z) :
  filter_index (fun i => negb (i =? index)%Z) l start
  = if ((start <=? index) && (index <? start + Z.of_nat (List.length l)))%Z
    then firstn (Z.to_nat (index - start)) l
         ++ skipn (S (Z.to_nat (index - start))) l
    else l.
Proof.
  revert start. induction l as [|a l IH]; intros start.
  - simpl. destruct ((start <=? index) && (index <? start + 0))%Z;
      [now rewrite firstn_nil | reflexivity].
  - cbn [filter_index]. rewrite IH. clear IH.
    cbn [List.length]. rewrite Nat2Z.inj_succ.
    destruct (Z.eqb_spec start index) as [->|Hne]; cbn [negb].
    + replace ((index + 1 <=? index)
               && (index <? index + 1 + Z.of_nat (List.length l)))%Z
        with false by (symmetry; range_test).
      replace ((index <=? index) && (index <? index + Z.succ (Z.of_nat (List.length l))))%Z
        with true by (symmetry; range_test).
      now rewrite Z.sub_diag.
    + destruct ((start <=? index)
                && (index <? start + Z.succ (Z.of_nat (List.length l))))%Z eqn:Hc.
      * apply andb_true_iff in Hc as [H1 H2].
        apply Z.leb_le in H1. apply Z.ltb_lt in H2.
        replace ((start + 1 <=? index)
                 && (index <? start + 1 + Z.of_nat (List.length l)))%Z
          with true by (symmetry; range_test).
        replace (Z.to_nat (index - start)) with (S (Z.to_nat (index - (start + 1))))
          by lia.
        reflexivity.
      * replace ((start + 1 <=? index)
                 && (index <? start + 1 + Z.of_nat (List.length l)))%Z
          with false; [reflexivity|].
        symmetry. apply andb_false_iff in Hc as [Hc|Hc].
        -- apply Z.leb_gt in Hc. range_test.
        -- apply Z.ltb_ge in Hc. range_test.
Qed.

(** [removeStep] takes out the step at [index] and keeps the others in
    order; an index outside the list (negative, or at least its length)
    removes nothing. *)
Theorem removeStep_spec (steps : list Step.t) (index : Z) :
  removeStep steps index
  = if ((0 <=? index) && (index <? Z.of_nat (List.length steps)))%Z
    then firstn (Z.to_nat index) steps ++ skipn (S (Z.to_nat index)) steps
    else steps.
Proof.
  unfold removeStep. rewrite filter_index_remove.
  now rewrite Z.sub_0_r, Z.add_0_l.
Qed.

Lemma filter_index_incl {A : Type} (p : Z -> bool) (l : list A) (i : Z) (x : A) :
  In x (filter_index p l i) -> In x l.
Proof.
  revert i. induction l as [|a l IH]; intros i; simpl; [tauto|].
  destruct (p i); simpl; intros H.
  - destruct H as [H|H]; [now left | right; eauto].
  - right. eauto.
Qed.

(** Removing a step from a valid procedure leaves a valid procedure, whatever
    the index and the metadata. *)
Theorem removeStep_keeps_valid
  (steps : list Step.t) (index : Z) (metadata metadata' : Metadata) :
  isValid steps metadata = Return true ->
  isValid (removeStep steps index) metadata' = Return true.
Proof.
  rewrite !isValid_verdicts, !verdicts_true, !Forall_forall.
  intros H s Hs. apply H. unfold removeStep in Hs.
  now apply filter_index_incl in Hs.
Qed.

Lemma removeStep_keeps_valid_witness :
  isValid [default_step "purge"; default_step "ocp"; default_step "lsv"] []
    = Return true /\
  isValid (removeStep [default_step "purge"; default_step "ocp"; default_step "lsv"] 0)
          [] = Return true /\
  issue_codes
    (validateProcedure
       (removeStep [default_step "purge"; default_step "ocp"; default_step "lsv"] 0)
       []) = ["DR007"].
Proof.
  assert (H : isValid [default_step "purge"; default_step "ocp"; default_step "lsv"] []
              = Return true) by reflexivity.
  split; [exact H|]. split; [|reflexivity].
  apply (removeStep_keeps_valid _ 0 [] [] H).
Defined.

(** ** Adding a step *)



(** ** Moving a step *)

Lemma length_replace_at {A : Type} (n : nat) (x : A) (l : list A) :
  List.length (replace_at n x l) = List.length l.
Proof.
  revert n. induction l as [|a l IH]; intros [|n]; simpl; auto.
Qed.

Lemma nth_error_replace_at {A : Type} (n m : nat) (x : A) (l : list A) :
  nth_error (replace_at n x l) m
  = if (n =? m)%nat
    then (if (m <? List.length l)%nat then Some x else None)
    else nth_error l m.
Proof.
  revert n m. induction l as [|a l IH]; intros n m.
  - simpl. destruct n, m; simpl; try reflexivity.
    destruct (n =? m)%nat; reflexivity.
  - destruct n as [|n], m as [|m]; simpl; try reflexivity.
    rewrite IH. reflexivity.
Qed.






(** ** Short keys *)

(** A key is cut at its first underscore when only letters and underscores
    follow: a stem without underscore is its own short key, and it is the
    short key of every key made of the stem, an underscore and such a tail.
    Two keys that differ only after the first underscore therefore share
    their short key. *)
Theorem cleanKey_cut (stem : string) :
  (forall c, In c (list_ascii_of_string stem) -> c <> "_"%char) ->
  cleanKey stem = stem /\
  forall tail,
    tail <> ""%string -> all_word_letters tail = true ->
    cleanKey (stem ++ String "_"%char tail) = stem.
Proof.
  induction stem as [|c stem IH]; intros Hstem.
  - split; [reflexivity|]. intros tail Hne Hall. simpl.
    rewrite Hall. destruct (String.eqb_spec tail ""); [contradiction | reflexivity].
  - assert (Hc : Ascii.eqb c "_"%char = false).
    { apply Ascii.eqb_neq. apply Hstem. now left. }
    destruct IH as [IH1 IH2].
    { intros c' Hc'. apply Hstem. now right. }
    split.
    + simpl. rewrite Hc. simpl. now rewrite IH1.
    + intros tail Hne Hall. simpl. rewrite Hc. simpl. now rewrite IH2.
Qed.

(** The two frequency keys of eis are both cut to [f]. *)
Lemma cleanKey_cut_witness :
  (forall c, In c (list_ascii_of_string "f") -> c <> "_"%char) /\
  cleanKey "f_start_Hz" = "f" /\ cleanKey "f_end_Hz" = "f".
Proof.
  assert (H : forall c, In c (list_ascii_of_string "f") -> c <> "_"%char).
  { simpl. intros c [<-|[]]. discriminate. }
  split; [exact H|]. split.
  - apply (proj2 (cleanKey_cut "f" H) "start_Hz"); [discriminate | reflexivity].
  - apply (proj2 (cleanKey_cut "f" H) "end_Hz"); [discriminate | reflexivity].
Defined.

(** ** Reading saved parameters back *)

(** In the key table of a catalog technique each full key stands for itself,
    no entry is empty, every entry is a key of the schema, and no key of the
    schema is [__proto__]. *)
Lemma paramKeyMap_catalog :
  Forall (fun e =>
            let schema := Technique.params (snd e) in
            forallb (fun k =>
                       match own (paramKeyMap schema) k with
                       | Some k' => String.eqb k' k
                       | None => false
                       end
                       && negb (String.eqb k "__proto__")) (keys schema)
            && forallb (fun kv =>
                          negb (String.eqb (snd kv) "")
                          && existsb (String.eqb (snd kv)) (keys schema))
                       (paramKeyMap schema)
            = true)
         TECHNIQUES.
Proof. repeat constructor. Qed.

Lemma paramKeyMap_facts (id : string) (tech : Technique.t) :
  own TECHNIQUES id = Some tech ->
  (forall k, In k (keys (Technique.params tech)) ->
             own (paramKeyMap (Technique.params tech)) k = Some k
             /\ k <> "__proto__") /\
  (forall k k', own (paramKeyMap (Technique.params tech)) k = Some k' ->
                k' <> ""%string /\ In k' (keys (Technique.params tech))).
Proof.
  intros Htech. apply own_In in Htech.
  pose proof paramKeyMap_catalog as H. rewrite Forall_forall in H.
  specialize (H _ Htech). simpl in H.
  apply andb_true_iff in H as [H1 H2].
  rewrite forallb_forall in H1, H2. split.
  - intros k Hk. specialize (H1 k Hk). apply andb_true_iff in H1 as [H1 H1'].
    destruct (own (paramKeyMap (Technique.params tech)) k) as [k'|];
      [|discriminate].
    apply String.eqb_eq in H1 as ->. split; [reflexivity|].
    apply negb_true_iff in H1'. now apply String.eqb_neq.
  - intros k k' Hown. apply own_In in Hown.
    specialize (H2 _ Hown). simpl in H2.
    apply andb_true_iff in H2 as [H2 H2']. split.
    + apply negb_true_iff in H2. now apply String.eqb_neq.
    + apply existsb_exists in H2' as (x & Hx & Heq).
      apply String.eqb_eq in Heq. now subst.
Qed.

(** What a resolved key that passes the [in] test can be: a key of the
    schema. *)
Lemma resolveKey_in_schema (id : string) (tech : Technique.t) (key fullKey : string) :
  own TECHNIQUES id = Some tech ->
  resolveKey (paramKeyMap (Technique.params tech)) key = Named fullKey ->
  has (Technique.params tech) fullKey = true ->
  In fullKey (keys (Technique.params tech)).
Proof.
  intros Htech Hres Hhas.
  destruct (paramKeyMap_facts id tech Htech) as [_ Hvals].
  unfold resolveKey in Hres.
  destruct (get (paramKeyMap (Technique.params tech)) key) as [k'| |] eqn:Hget.
  - apply get_Own in Hget. destruct (Hvals _ _ Hget) as [Hne Hin].
    destruct (String.eqb_spec k' ""); [contradiction|].
    now injection Hres as <-.
  - discriminate.
  - injection Hres as <-. apply get_Undefined in Hget as [_ Hproto].
    unfold has, get in Hhas.
    destruct (own (Technique.params tech) key) as [c|] eqn:Hown.
    + apply own_In in Hown. apply (in_map fst) in Hown. exact Hown.
    + destruct (inherited key) eqn:Hinh; [|discriminate].
      apply inherited_spec in Hinh. contradiction.
Qed.

Lemma keys_set_present {A : Type} (o : obj A) (k : string) (a : A) :
  In k (keys o) -> keys (JS.set o k a) = keys o.
Proof.
  induction o as [|[k0 a0] o IH]; simpl; [tauto|].
  intros [->|Hin].
  - now rewrite String.eqb_refl.
  - destruct (String.eqb_spec k0 k) as [->|_]; [reflexivity|].
    simpl. now rewrite IH.
Qed.

Lemma keys_assign_present {A : Type} (o : obj A) (k : string) (a : A) :
  In k (keys o) -> keys (assign o k a) = keys o.
Proof.
  intros H. unfold assign. destruct (String.eqb k "__proto__"); [reflexivity|].
  now apply keys_set_present.
Qed.

(** Reading saved entries into a step that has every key of the schema of
    its catalog technique (as a default step has) never adds, drops or
    moves a key, whatever the entries are. *)
Theorem importParams_keeps_keys
  (id : string) (tech : Technique.t) (stepParams entries : obj value) :
  own TECHNIQUES id = Some tech ->
  incl (keys (Technique.params tech)) (keys stepParams) ->
  keys (importParams (Technique.params tech) stepParams entries) = keys stepParams.
Proof.
  intros Htech. unfold importParams.
  revert stepParams. induction entries as [|[key v] entries IH];
    intros stepParams Hincl; [reflexivity|].
  cbn [fold_left fst snd].
  destruct (resolveKey (paramKeyMap (Technique.params tech)) key)
    as [fullKey|] eqn:Hres; [|now apply IH].
  destruct (has (Technique.params tech) fullKey) eqn:Hhas; [|now apply IH].
  destruct (not_null v); [|now apply IH].
  destruct (not_undefined v); [|now apply IH].
  cbn [andb].
  assert (Hin : In fullKey (keys stepParams)).
  { apply Hincl. now apply (resolveKey_in_schema id tech key). }
  rewrite IH; rewrite keys_assign_present by assumption;
    [reflexivity | assumption].
Qed.

Lemma importParams_keeps_keys_witness :
  own TECHNIQUES "eis" = Some eis /\
  incl (keys (Technique.params eis)) (keys (Step.params (default_step "eis"))) /\
  keys (importParams (Technique.params eis) (Step.params (default_step "eis"))
          [("f", VNum 5%float); ("amplitude", VNum 7%float);
           ("toString", VNum 1%float); ("gain", VNum 2%float);
           ("f_start_Hz", VNull)])
  = keys (Step.params (default_step "eis")) /\
  importParams (Technique.params eis) (Step.params (default_step "eis"))
    [("f", VNum 5%float); ("amplitude", VNum 7%float);
     ("toString", VNum 1%float); ("gain", VNum 2%float); ("f_start_Hz", VNull)]
  = [("f_start_Hz", VNum 100000%float); ("f_end_Hz", VNum 5%float);
     ("amplitude_mV", VNum 7%float); ("dc_potential_V", VStr "OCP");
     ("points_per_decade", VNum 10%float)].
Proof.
  assert (H : incl (keys (Technique.params eis))
                   (keys (Step.params (default_step "eis"))))
    by apply incl_refl.
  split; [reflexivity|]. split; [exact H|]. split; [|reflexivity].
  exact (importParams_keeps_keys "eis" eis _ _ eq_refl H).
Defined.

(** The key table maps a name to the last parameter of the schema that has
    it as its full key or as its short key. *)
Lemma own_assign {A : Type} (o : obj A) (k k' : string) (a : A) :
  k' <> "__proto__" ->
  own (assign o k a) k' = if String.eqb k k' then Some a else own o k'.
Proof.
  intros Hk'. unfold assign.
  destruct (String.eqb_spec k "__proto__") as [->|_]; [|apply own_set].
  destruct (String.eqb_spec "__proto__" k'); [congruence | reflexivity].
Qed.

Lemma find_app {A : Type} (p : A -> bool) (l1 l2 : list A) :
  find p (l1 ++ l2) = match find p l1 with Some x => Some x | None => find p l2 end.
Proof.
  induction l1 as [|a l1 IH]; simpl; [reflexivity|].
  now destruct (p a).
Qed.

Lemma paramKeyMap_fold (l : list string) (m : obj string) (k : string) :
  k <> "__proto__" ->
  own (fold_left (fun m fullKey =>
                    assign (assign m (cleanKey fullKey) fullKey) fullKey fullKey)
                 l m) k
  = match find (fun fullKey =>
                  String.eqb fullKey k || String.eqb (cleanKey fullKey) k)
               (rev l) with
    | Some fullKey => Some fullKey
    | None => own m k
    end.
Proof.
  intros Hk. revert m. induction l as [|f l IH]; intros m; [reflexivity|].
  cbn [fold_left rev]. rewrite IH, find_app. cbn [find].
  destruct (find _ (rev l)); [reflexivity|].
  rewrite !own_assign by assumption.
  destruct (String.eqb f k); [reflexivity|].
  now destruct (String.eqb (cleanKey f) k).
Qed.

(** Any schema: a name other than [__proto__] is in the key table exactly
    when some parameter has it as full key or as short key, and it stands
    for the last such parameter of the schema.  A short key shared by two
    parameters thus reaches the later one only, and a full key that is also
    the short key of a later parameter reaches that later one. *)
Theorem paramKeyMap_last (schema : obj ParamSpec.t) (k : string) :
  k <> "__proto__" ->
  own (paramKeyMap schema) k
  = find (fun fullKey => String.eqb fullKey k || String.eqb (cleanKey fullKey) k)
         (rev (keys schema)).
Proof.
  intros Hk. unfold paramKeyMap. rewrite paramKeyMap_fold by assumption.
  now destruct (find _ _).
Qed.

Lemma paramKeyMap_last_witness :
  "f" <> "__proto__" /\
  own (paramKeyMap (Technique.params eis)) "f" = Some "f_end_Hz" /\
  own (paramKeyMap
         [("f", ParamSpec.mk "f" "number" VNull None None None None);
          ("f_Hz", ParamSpec.mk "f" "number" VNull None None None None)]) "f"
  = Some "f_Hz".
Proof.
  assert (H : "f" <> "__proto__") by discriminate.
  split; [exact H|]. split.
  - rewrite (paramKeyMap_last (Technique.params eis) "f" H). reflexivity.
  - rewrite (paramKeyMap_last _ "f" H). reflexivity.
Defined.

Lemma fold_left_ext_in {A B : Type} (f g : A -> B -> A) (l : list B) (a : A) :
  (forall acc b, In b l -> f acc b = g acc b) ->
  fold_left f l a = fold_left g l a.
Proof.
  revert a. induction l as [|b l IH]; intros a H; [reflexivity|].
  simpl. rewrite H by now left. apply IH. intros acc b' Hb'. apply H. now right.
Qed.

Lemma own_fold_guarded_set (ok : value -> bool) (entries start : obj value)
  (k : string) :
  NoDup (keys entries) ->
  own (fold_left (fun p e => if ok (snd e) then JS.set p (fst e) (snd e) else p)
                 entries start) k
  = match own entries k with
    | Some v => if ok v then Some v else own start k
    | None => own start k
    end.
Proof.
  revert start. induction entries as [|[k0 v0] entries IH]; intros start Hnd;
    [reflexivity|].
  inversion Hnd as [|? ? Hnotin Hnd']; subst.
  cbn [fold_left fst snd own]. rewrite IH by assumption.
  destruct (String.eqb_spec k0 k) as [->|Hne].
  - apply own_None in Hnotin. rewrite Hnotin.
    destruct (ok v0); [|reflexivity].
    now rewrite own_set, String.eqb_refl.
  - destruct (ok v0) eqn:Hok.
    + rewrite own_set. destruct (String.eqb_spec k0 k); [contradiction|].
      reflexivity.
    + reflexivity.
Qed.

(** Saved parameters written under the full keys of the schema of a catalog
    technique are read back as saved: after the import each saved key holds
    its saved value, except that a saved [null] or [undefined] leaves what
    the step had; every other key of the step keeps what it had. *)
Theorem importParams_full_keys
  (id : string) (tech : Technique.t) (stepParams entries : obj value) (k : string) :
  own TECHNIQUES id = Some tech ->
  NoDup (keys entries) ->
  incl (keys entries) (keys (Technique.params tech)) ->
  own (importParams (Technique.params tech) stepParams entries) k
  = match own entries k with
    | Some v => if not_null v && not_undefined v then Some v else own stepParams k
    | None => own stepParams k
    end.
Proof.
  intros Htech Hnd Hincl.
  destruct (paramKeyMap_facts id tech Htech) as [Hfull Hvals].
  rewrite <- (own_fold_guarded_set (fun v => not_null v && not_undefined v))
    by assumption.
  unfold importParams. f_equal. apply fold_left_ext_in.
  intros acc [key v] Hin. cbn [fst snd].
  assert (Hkey : In key (keys (Technique.params tech))).
  { apply Hincl. apply (in_map fst) in Hin. exact Hin. }
  destruct (Hfull key Hkey) as [Hown Hproto].
  destruct (Hvals _ _ Hown) as [Hne _].
  unfold resolveKey. apply get_Own in Hown. rewrite Hown.
  destruct (String.eqb_spec key ""); [contradiction|].
  assert (Hhas : has (Technique.params tech) key = true).
  { unfold has, get.
    destruct (own (Technique.params tech) key) eqn:Hs; [reflexivity|].
    apply own_None in Hs. contradiction. }
  rewrite Hhas. cbn [andb]. unfold assign.
  destruct (String.eqb_spec key "__proto__"); [contradiction|].
  now destruct (not_null v), (not_undefined v).
Qed.

(** The parameters of a saved cv step with a cleared cycle count, read into
    a default cv step: the scan rate comes back, the cycle count is the
    default again. *)
Lemma importParams_full_keys_witness :
  own TECHNIQUES "cv" = Some cv /\
  NoDup (keys (JS.set (Step.params cv_100) "cycles" VNull)) /\
  incl (keys (JS.set (Step.params cv_100) "cycles" VNull))
       (keys (Technique.params cv)) /\
  own (importParams (Technique.params cv) (Step.params (default_step "cv"))
         (JS.set (Step.params cv_100) "cycles" VNull))
      "scan_rate_mV_s" = Some (VNum 100%float) /\
  own (importParams (Technique.params cv) (Step.params (default_step "cv"))
         (JS.set (Step.params cv_100) "cycles" VNull))
      "cycles" = Some (VNum 3%float).
Proof.
  assert (Hnd : NoDup (keys (JS.set (Step.params cv_100) "cycles" VNull))).
  { vm_compute. repeat constructor; simpl; intuition discriminate. }
  assert (Hincl : incl (keys (JS.set (Step.params cv_100) "cycles" VNull))
                       (keys (Technique.params cv)))
    by apply incl_refl.
  split; [reflexivity|]. split; [exact Hnd|]. split; [exact Hincl|]. split.
  - rewrite (importParams_full_keys "cv" cv _ _ "scan_rate_mV_s" eq_refl Hnd Hincl).
    reflexivity.
  - rewrite (importParams_full_keys "cv" cv _ _ "cycles" eq_refl Hnd Hincl).
    reflexivity.
Defined.

(** For a catalog technique, saved entries under names that are neither a
    full key nor a short key of its schema change nothing: the [in] test
    rejects them, and the members of [Object.prototype] among them too. *)
Theorem importParams_foreign_names
  (id : string) (tech : Technique.t) (stepParams entries : obj value) :
  own TECHNIQUES id = Some tech ->
  (forall key, In key (keys entries) ->
               own (paramKeyMap (Technique.params tech)) key = None) ->
  importParams (Technique.params tech) stepParams entries = stepParams.
Proof.
  intros Htech. destruct (paramKeyMap_facts id tech Htech) as [Hfull _].
  unfold importParams. revert stepParams.
  induction entries as [|[key v] entries IH]; intros stepParams Hkeys;
    [reflexivity|].
  cbn [fold_left fst snd].
  assert (Hnone : own (paramKeyMap (Technique.params tech)) key = None)
    by (apply Hkeys; now left).
  assert (Hrest : forall key', In key' (keys entries) ->
                  own (paramKeyMap (Technique.params tech)) key' = None)
    by (intros key' Hin; apply Hkeys; now right).
  unfold resolveKey, get. rewrite Hnone.
  destruct (inherited key) eqn:Hinh; [now apply IH|].
  assert (Hhas : has (Technique.params tech) key = false).
  { unfold has, get. rewrite Hinh.
    destruct (own (Technique.params tech) key) eqn:Hs; [|reflexivity].
    apply own_In in Hs. apply (in_map fst) in Hs.
    destruct (Hfull key Hs) as [Hown _]. congruence. }
  rewrite Hhas. now apply IH.
Qed.

(** [scan_rate] and [vertex] are no names of the cv schema, whose short
    keys are [scan] and [vertex1], [vertex2]. *)
Lemma importParams_foreign_names_witness :
  own TECHNIQUES "cv" = Some cv /\
  (forall key, In key ["scan_rate"; "vertex"; "valueOf"] ->
               own (paramKeyMap (Technique.params cv)) key = None) /\
  importParams (Technique.params cv) (Step.params (default_step "cv"))
    [("scan_rate", VNum 100%float); ("vertex", VNum 1%float);
     ("valueOf", VNum 2%float)]
  = Step.params (default_step "cv").
Proof.
  assert (H : forall key, In key ["scan_rate"; "vertex"; "valueOf"] ->
                          own (paramKeyMap (Technique.params cv)) key = None).
  { intros key [<-|[<-|[<-|[]]]]; reflexivity. }
  split; [reflexivity|]. split; [exact H|].
  exact (importParams_foreign_names "cv" cv _
           [("scan_rate", VNum 100%float); ("vertex", VNum 1%float);
            ("valueOf", VNum 2%float)] eq_refl H).
Defined.

(** ** Replacing a step *)

Lemma replace_at_split {A : Type} (n : nat) (x : A) (l : list A) :
  (n < List.length l)%nat ->
  replace_at n x l = firstn n l ++ x :: skipn (S n) l.
Proof.
  revert n. induction l as [|a l IH]; intros [|n] H; simpl in *; try lia.
  - reflexivity.
  - f_equal. apply IH. lia.
Qed.

(** [updateStep] at the index of a step puts the new step there and leaves
    the others in place; the procedure is valid afterwards exactly when the
    new step is valid and the steps other than the replaced one are. *)
Theorem updateStep_spec
  (steps : list Step.t) (index : Z) (newStep : Step.t) (metadata : Metadata) :
  (0 <= index < Z.of_nat (List.length steps))%Z ->
  exists steps',
    updateStep steps index newStep = Some steps' /\
    List.length steps' = List.length steps /\
    nth_error steps' (Z.to_nat index) = Some newStep /\
    (forall j, j <> Z.to_nat index -> nth_error steps' j = nth_error steps j) /\
    (isValid steps' metadata = Return true <->
     step_valid newStep /\ Forall step_valid (removeStep steps index)).
Proof.
  intros Hidx. exists (replace_at (Z.to_nat index) newStep steps).
  assert (Hn : (Z.to_nat index < List.length steps)%nat) by lia.
  split; [|split; [|split; [|split]]].
  - unfold updateStep.
    replace ((0 <=? index)%Z && (index <? Z.of_nat (List.length steps))%Z)
      with true by (symmetry; range_test).
    reflexivity.
  - apply length_replace_at.
  - rewrite nth_error_replace_at, Nat.eqb_refl.
    apply Nat.ltb_lt in Hn. now rewrite Hn.
  - intros j Hj. rewrite nth_error_replace_at.
    destruct (Nat.eqb_spec (Z.to_nat index) j); [congruence | reflexivity].
  - rewrite isValid_verdicts, verdicts_true.
    rewrite replace_at_split by assumption.
    unfold removeStep. rewrite filter_index_remove.
    replace ((0 <=? index)%Z && (index <? 0 + Z.of_nat (List.length steps))%Z)
      with true by (symmetry; range_test).
    rewrite Z.sub_0_r, !Forall_app, Forall_cons_iff. tauto.
Qed.

(** The fast cv step of a two-step procedure is replaced by a default one. *)
Lemma updateStep_spec_witness :
  (0 <= 1 < Z.of_nat (List.length [default_step "ocp"; cv_fast]))%Z /\
  exists steps',
    updateStep [default_step "ocp"; cv_fast] 1 (default_step "cv") = Some steps' /\
    List.length steps' = 2%nat /\
    nth_error steps' 1 = Some (default_step "cv") /\
    (forall j, j <> 1%nat ->
               nth_error steps' j = nth_error [default_step "ocp"; cv_fast] j) /\
    (isValid steps' [] = Return true <->
     step_valid (default_step "cv") /\
     Forall step_valid (removeStep [default_step "ocp"; cv_fast] 1)).
Proof.
  assert (H : (0 <= 1 < Z.of_nat (List.length [default_step "ocp"; cv_fast]))%Z)
    by (simpl; lia).
  split; [exact H|].
  exact (updateStep_spec [default_step "ocp"; cv_fast] 1 (default_step "cv") [] H).
Defined.

(** ** Instances *)

(** The default swv step, at any clock and draw. *)
Lemma createDefaultStep_catalog_witness :
  own TECHNIQUES "swv" = Some swv /\
  exists step,
    createDefaultStep 1700000000000 "0.k3j9x0a2b" "swv" = Return step /\
    Step.technique step = "swv" /\
    Step.tag step = "" /\
    keys (Step.params step) = keys (Technique.params swv) /\
    forall key config,
      own (Technique.params swv) key = Some config ->
      own (Step.params step) key = Some (ParamSpec.default config).
Proof.
  split; [reflexivity|].
  exact (createDefaultStep_catalog 1700000000000 "0.k3j9x0a2b" "swv" swv eq_refl).
Defined.

(** A valid ocp step is followed by a step whose technique is read as
    [toString] and which has a parameter: the validation of the procedure
    ends in the [TypeError] of that step. *)
Lemma isValid_Throw_witness :
  Forall2 (fun a r => validateStep a = Return r) [default_step "ocp"] [[]] /\
  validateStep (Step.mk "s" "toString" [("duration_s", VNum 60%float)] "")
  = Throw TypeError /\
  isValid ([default_step "ocp"]
             ++ Step.mk "s" "toString" [("duration_s", VNum 60%float)] ""
             :: [default_step "cv"]) []
  = Throw TypeError.
Proof.
  assert (H1 : Forall2 (fun a r => validateStep a = Return r)
                       [default_step "ocp"] [[]])
    by (repeat constructor).
  assert (H2 : validateStep
                 (Step.mk "s" "toString" [("duration_s", VNum 60%float)] "")
               = Throw TypeError)
    by reflexivity.
  split; [exact H1|]. split; [exact H2|].
  exact (isValid_Throw [default_step "ocp"] _ [default_step "cv"] [] [[]]
           TypeError H1 H2).
Defined.
